(** * cmr_token_creator: the EDL bearer-token Lambda, embedded in Rocq

    A shallow embedding of [cmr_token_creator.py].  The Python module talks to
    four external collaborators (SSM Parameter Store, KMS, the Earthdata Login
    HTTP API and the logger).  Every call to one of them is recorded, in
    program order, in a trace of events; what the collaborator answers is
    given by a [world], a family of oracles that see the whole trace so far.
    Python exceptions are an explicit outcome of the computation. *)

From Stdlib Require Import ZArith List Bool Ascii String Lia.
From stdpp Require Import gmap strings.
Import ListNotations.

Set Warnings "-register-all".

Local Open Scope string_scope.
Local Open Scope list_scope.

(** ** Python values *)

(** The values the program handles are strings read from SSM and whatever
    [response.json()] parses: a JSON document.  Python's [False] is
    [JBool false] and [None] is [JNull].  A [JObj] is a [dict] in insertion
    order, each key bound once; numbers are the integers. *)
Inductive json : Type :=
| JNull
| JBool (b : bool)
| JNum (n : Z)
| JStr (s : string)
| JArr (items : list json)
| JObj (fields : list (string * json)).

(** [d[key]] on the fields of a dict. *)
Fixpoint dict_get (key : string) (fields : list (string * json)) : option json :=
  match fields with
  | [] => None
  | (k, v) :: rest => if String.eqb key k then Some v else dict_get key rest
  end.

(** [list(d.keys())]. *)
Definition dict_keys (fields : list (string * json)) : list string :=
  map fst fields.

(** [key in keys]. *)
Definition key_in (key : string) (keys : list string) : bool :=
  existsb (String.eqb key) keys.

(** [v == s] for a string literal [s]. *)
Definition py_eq_str (v : json) (s : string) : bool :=
  match v with
  | JStr t => String.eqb t s
  | _ => false
  end.

(** [bool(v)], as [not token] tests it. *)
Definition py_truthy (v : json) : bool :=
  match v with
  | JNull => false
  | JBool b => b
  | JNum n => negb (Z.eqb n 0)
  | JStr s => negb (String.eqb s "")
  | JArr items => match items with [] => false | _ => true end
  | JObj fields => match fields with [] => false | _ => true end
  end.

(** The one-character strings a [for] loop draws from a [str]. *)
Fixpoint str_chars (s : string) : list json :=
  match s with
  | EmptyString => []
  | String c rest => JStr (String c EmptyString) :: str_chars rest
  end.

(** ** Exceptions and the effect monad *)

Inductive exn : Type :=
| ClientError (msg : string)       (* botocore.exceptions.ClientError *)
| BotoCoreError (msg : string)     (* any other botocore exception *)
| RequestException (msg : string)  (* raised by a requests call itself *)
| JSONDecodeError                  (* response.json() on a non-JSON body *)
| KeyError (key : string)
| AttributeError (attr : string)
| TypeError
| SystemExit (code : Z).

Inductive result (A : Type) : Type :=
| Ok (a : A)
| Raise (e : exn).
Arguments Ok {A} a.
Arguments Raise {A} e.

Inductive http_method : Type := GET | POST.

Inductive level : Type := INFO | ERROR.

(** The keyword arguments of [ssm_client.put_parameter]. *)
Record put_request : Type := PutRequest {
  Name : string;
  Description : string;
  Value : json;
  Type_ : string;
  KeyId : string;
  Overwrite : bool;
  Tier : string
}.

Inductive event : Type :=
| EGetParameter (name : string) (with_decryption : bool)
| EDescribeKey (key_id : string)
| EPutParameter (req : put_request)
| EHttp (m : http_method) (url : string) (headers : list (string * string))
        (username password : string)
| ELog (lvl : level) (msg : string).

(** What [requests.get] / [requests.post] can come back with. *)
Inductive http_response : Type :=
| HttpJson (body : json)     (* a response whose body parses as JSON *)
| HttpNotJson                (* a response whose body does not *)
| HttpFail (msg : string).   (* no response: the call raises *)

(** The collaborators outside the module.  Each oracle is given the trace of
    everything that happened before the call.  [str_other] is Python's
    [str()] on values that are not strings, used by the f-strings. *)
Record world : Type := World {
  ssm_get_parameter : list event -> string -> bool -> exn + string;
  kms_describe_key : list event -> string -> exn + string;
  ssm_put_parameter : list event -> put_request -> exn + unit;
  http_request : list event -> http_method -> string ->
                 list (string * string) -> string -> string -> http_response;
  str_other : json -> string
}.

(** A computation reads the trace so far and extends it. *)
Definition M (A : Type) : Type := list event -> result A * list event.

Definition ret {A} (a : A) : M A := fun tr => (Ok a, tr).

Definition raise {A} (e : exn) : M A := fun tr => (Raise e, tr).

Definition bind {A B} (m : M A) (f : A -> M B) : M B :=
  fun tr =>
    match m tr with
    | (Ok a, tr') => f a tr'
    | (Raise e, tr') => (Raise e, tr')
    end.

Notation "x <- m ;; k" := (bind m (fun x => k))
  (at level 200, m at level 99, right associativity).
Notation "m ;;; k" := (bind m (fun _ => k))
  (at level 200, right associativity).

Definition emit (ev : event) : M unit := fun tr => (Ok tt, tr ++ [ev]).

(** [try: body / except botocore.exceptions.ClientError as error: handler]. *)
Definition try_except_ClientError {A} (body : M A) (handler : string -> M A) : M A :=
  fun tr =>
    match body tr with
    | (Raise (ClientError msg), tr') => handler msg tr'
    | other => other
    end.

(** A boto3 call: recorded, then answered by the oracle. *)
Definition aws_call {A} (ev : event) (answer : list event -> exn + A) : M A :=
  fun tr =>
    match answer tr with
    | inl e => (Raise e, tr ++ [ev])
    | inr a => (Ok a, tr ++ [ev])
    end.

(** [for x in items: body x]. *)
Fixpoint for_each {A} (items : list A) (body : A -> M unit) : M unit :=
  match items with
  | [] => ret tt
  | x :: rest => body x ;;; for_each rest body
  end.

(** ** Python primitives *)

Definition py_keys (v : json) : M (list string) :=
  match v with
  | JObj fields => ret (dict_keys fields)
  | _ => raise (AttributeError "keys")
  end.

Definition py_getitem (v : json) (key : string) : M json :=
  match v with
  | JObj fields =>
      match dict_get key fields with
      | Some x => ret x
      | None => raise (KeyError key)
      end
  | _ => raise TypeError
  end.

(** [iter(v)]: what a [for] loop over [v] visits. *)
Definition py_iter (v : json) : M (list json) :=
  match v with
  | JArr items => ret items
  | JObj fields => ret (map JStr (dict_keys fields))
  | JStr s => ret (str_chars s)
  | _ => raise TypeError
  end.

Section Program.

Variable w : world.

(** [str(v)] inside an f-string. *)
Definition py_str (v : json) : string :=
  match v with
  | JStr s => s
  | _ => str_other w v
  end.

Definition logger_info (msg : string) : M unit := emit (ELog INFO msg).
Definition logger_error (msg : string) : M unit := emit (ELog ERROR msg).

Definition HEADERS : list (string * string) := [("Accept", "application/json")].

(** [requests.<m>(url, headers=HEADERS, auth=HTTPBasicAuth(username, password))]. *)
Definition requests_call (m : http_method) (url username password : string)
  : M http_response :=
  fun tr =>
    let ev := EHttp m url HEADERS username password in
    match http_request w tr m url HEADERS username password with
    | HttpFail msg => (Raise (RequestException msg), tr ++ [ev])
    | r => (Ok r, tr ++ [ev])
    end.

Definition requests_post := requests_call POST.
Definition requests_get := requests_call GET.

(** [response.json()]. *)
Definition response_json (r : http_response) : M json :=
  match r with
  | HttpJson body => ret body
  | _ => raise JSONDecodeError
  end.

Definition get_parameter (name : string) (with_decryption : bool) : M string :=
  aws_call (EGetParameter name with_decryption)
           (fun tr => ssm_get_parameter w tr name with_decryption).

Definition describe_key (key_id : string) : M string :=
  aws_call (EDescribeKey key_id) (fun tr => kms_describe_key w tr key_id).

Definition put_parameter (req : put_request) : M unit :=
  aws_call (EPutParameter req) (fun tr => ssm_put_parameter w tr req).

(** ** The module's functions *)

(** [get_logger] only configures the [logging] module: the logger is the
    trace, and a log call is an [ELog] event.  [boto3.client] only builds a
    client object; the calls made on it are the events. *)

Definition get_edl_creds : M (string * string) :=
  try_except_ClientError
    (username <- get_parameter "edl_username" true ;;
     password <- get_parameter "edl_password" true ;;
     logger_info "Retrieved EDL username and password." ;;;
     ret (username, password))
    (fun error =>
       logger_error "Could not retrieve EDL credentials from SSM Parameter Store." ;;;
       logger_error error ;;;
       raise (ClientError error)).

(** The body of the loop in [handle_token_error]. *)
Definition revoke_if_token (username password delete_token_url : string)
                           (token : json) : M unit :=
  keys <- py_keys token ;;
  if key_in "access_token" keys then
    access_token <- py_getitem token "access_token" ;;
    requests_post (delete_token_url +:+ "=" +:+ py_str access_token)
                  username password ;;;
    ret tt
  else ret tt.

Definition handle_token_error (token_data : json)
           (username password token_url delete_token_url : string) : M json :=
  post_get <- requests_get (token_url +:+ "s") username password ;;
  token_data <- response_json post_get ;;
  tokens <- py_iter token_data ;;
  for_each tokens (revoke_if_token username password delete_token_url) ;;;
  post_response <- requests_post token_url username password ;;
  token_data <- response_json post_response ;;
  keys <- py_keys token_data ;;
  if key_in "error" keys then
    logger_error "Error encountered when trying to retrieve bearer token from EDL." ;;;
    ret (JBool false)
  else py_getitem token_data "access_token".

Definition generate_token (username password token_url delete_token_url : string)
  : M json :=
  let finish (token : json) : M json :=
    logger_info "Successfully generated EDL bearer token." ;;;
    ret token in
  post_response <- requests_post token_url username password ;;
  token_data <- response_json post_response ;;
  keys <- py_keys token_data ;;
  if key_in "error" keys then
    error <- py_getitem token_data "error" ;;
    if py_eq_str error "max_token_limit" then
      token <- handle_token_error token_data username password
                                  token_url delete_token_url ;;
      finish token
    else
      logger_error "Error encountered when trying to retrieve bearer token from EDL." ;;;
      ret (JBool false)
  else
    token <- py_getitem token_data "access_token" ;;
    finish token.

Definition store_token (token prefix : json) : M unit :=
  try_except_ClientError
    (key <- describe_key ("alias/" +:+ py_str prefix +:+ "-ssm-parameter-store") ;;
     put_parameter {| Name := "bearer--edl--token";
                      Description := "Temporary EDL bearer token";
                      Value := token;
                      Type_ := "SecureString";
                      KeyId := key;
                      Overwrite := true;
                      Tier := "Standard" |} ;;;
     logger_info "EDL bearer token has been stored as a secure string in SSM Parameter Store.")
    (fun error =>
       logger_error "Could not store EDL bearer token in SSM Parameter Store." ;;;
       logger_error error ;;;
       raise (ClientError error)).

Definition token_url : string := "https://urs.earthdata.nasa.gov/api/users/token".
Definition delete_token_url : string :=
  "https://urs.earthdata.nasa.gov/api/users/revoke_token?token".

Definition sys_exit {A} (code : Z) : M A := raise (SystemExit code).

Definition lambda_handler {C : Type} (event : json) (context : C) : M unit :=
  logger_info "Attempting to create token." ;;;
  try_except_ClientError
    (creds <- get_edl_creds ;;
     token <- generate_token (fst creds) (snd creds) token_url delete_token_url ;;
     prefix <- py_getitem event "prefix" ;;
     store_token token prefix ;;;
     if negb (py_truthy token) then
       logger_info "Program exiting." ;;;
       sys_exit 1
     else ret tt)
    (fun _ =>
       logger_info "Program exiting." ;;;
       sys_exit 1).

End Program.

Arguments HEADERS : simpl never.

(** ** Reading a trace *)

(** The requests the module sends to Earthdata Login, told apart by verb and
    URL as [lambda_handler] fixes them. *)
Definition is_token_creation (ev : event) : bool :=
  match ev with
  | EHttp POST url _ _ _ => String.eqb url token_url
  | _ => false
  end.

Definition is_provider_call (ev : event) : bool :=
  match ev with
  | EHttp _ _ _ _ _ => true
  | _ => false
  end.

Definition is_key_resolution (ev : event) : bool :=
  match ev with
  | EDescribeKey _ => true
  | _ => false
  end.

Definition is_parameter_write (ev : event) : bool :=
  match ev with
  | EPutParameter _ => true
  | _ => false
  end.

Definition count_events (p : event -> bool) (tr : list event) : nat :=
  length (List.filter p tr).

(** The write requests of a trace, oldest first. *)
Fixpoint put_requests (tr : list event) : list put_request :=
  match tr with
  | [] => []
  | EPutParameter req :: rest => req :: put_requests rest
  | _ :: rest => put_requests rest
  end.

(** The [access_token] values of the listed entries that have one. *)
Fixpoint access_tokens (entries : list (list (string * json))) : list json :=
  match entries with
  | [] => []
  | fields :: rest =>
      match dict_get "access_token" fields with
      | Some v => v :: access_tokens rest
      | None => access_tokens rest
      end
  end.

(** The event of the revoke request for one token value. *)
Definition revoke_event (w : world) (username password delete_url : string)
                        (access_token : json) : event :=
  EHttp POST (delete_url +:+ "=" +:+ py_str w access_token) HEADERS username password.

Definition creation_event (username password url : string) : event :=
  EHttp POST url HEADERS username password.

Definition list_event (username password url : string) : event :=
  EHttp GET (url +:+ "s") HEADERS username password.

(** The request comes back with a response (the transport does not raise). *)
Definition http_returns (w : world) (tr : list event) (m : http_method)
                        (url username password : string) : Prop :=
  forall msg, http_request w tr m url HEADERS username password <> HttpFail msg.

(** Every revoke request of the loop comes back, each one asked after the
    ones before it. *)
Definition revokes_return (w : world) (username password delete_url : string)
                          (tr : list event) (tokens : list json) : Prop :=
  forall pre v post,
    tokens = pre ++ v :: post ->
    http_returns w (tr ++ map (revoke_event w username password delete_url) pre)
                 POST (delete_url +:+ "=" +:+ py_str w v) username password.

(** The trace once the tokens are listed, and once they are revoked. *)
Definition listed_trace (username password url : string) (tr : list event)
  : list event :=
  tr ++ [creation_event username password url; list_event username password url].

Definition revoked_trace (w : world) (username password url delete_url : string)
                         (tr : list event) (entries : list (list (string * json)))
  : list event :=
  listed_trace username password url tr ++
  map (revoke_event w username password delete_url) (access_tokens entries).

Definition error_log : event :=
  ELog ERROR "Error encountered when trying to retrieve bearer token from EDL.".
Definition success_log : event :=
  ELog INFO "Successfully generated EDL bearer token.".

(** The parameter [store_token] writes, and the alias it resolves. *)
Definition key_alias (w : world) (prefix : json) : string :=
  "alias/" +:+ py_str w prefix +:+ "-ssm-parameter-store".

Definition token_parameter (token : json) (key : string) : put_request :=
  {| Name := "bearer--edl--token";
     Description := "Temporary EDL bearer token";
     Value := token;
     Type_ := "SecureString";
     KeyId := key;
     Overwrite := true;
     Tier := "Standard" |}.

Definition stored_log : event :=
  ELog INFO "EDL bearer token has been stored as a secure string in SSM Parameter Store.".
Definition store_error_log : event :=
  ELog ERROR "Could not store EDL bearer token in SSM Parameter Store.".

Definition credentials_error_log : event :=
  ELog ERROR "Could not retrieve EDL credentials from SSM Parameter Store.".
Definition credentials_log : event :=
  ELog INFO "Retrieved EDL username and password.".
Definition start_log : event := ELog INFO "Attempting to create token.".
Definition exit_log : event := ELog INFO "Program exiting.".

(** No request to Earthdata Login, to KMS or to write a parameter. *)
Definition is_outbound_call (ev : event) : bool :=
  is_provider_call ev || is_key_resolution ev || is_parameter_write ev.

(** [m] extends any trace by at most [n] events satisfying [p], whether it
    returns or raises. *)
Definition adds_at_most {A} (p : event -> bool) (n : nat) (m : M A) : Prop :=
  forall tr, count_events p (snd (m tr)) <= count_events p tr + n.

(** ** The parameter store *)

(** Modelled from the spec: the secure parameter store is an external
    service, absent from the module.  It holds at most one value under a
    name; a write with overwrite enabled discards the prior value, and a
    write without it leaves an existing value in place. *)
Definition ssm_write (req : put_request) (store : gmap string put_request)
  : gmap string put_request :=
  if Overwrite req then <[Name req := req]> store
  else match store !! Name req with
       | Some _ => store
       | None => <[Name req := req]> store
       end.

(** The store after the accepted writes [reqs], oldest first. *)
Definition ssm_replay (reqs : list put_request) (store : gmap string put_request)
  : gmap string put_request :=
  fold_left (fun s req => ssm_write req s) reqs store.

(** ** Scripted worlds *)

(** A world for running the module on concrete inputs: SSM and KMS answer
    with fixed results, and the n-th HTTP request of the run gets the n-th
    response of the script. *)
Definition scripted_world (username password key : exn + string)
                          (put : exn + unit) (script : list http_response)
  : world :=
  {| ssm_get_parameter := fun _ name _ =>
       if String.eqb name "edl_username" then username else password;
     kms_describe_key := fun _ _ => key;
     ssm_put_parameter := fun _ _ => put;
     http_request := fun tr _ _ _ _ _ =>
       nth (count_events is_provider_call tr) script (HttpFail "no response");
     str_other := fun _ => "" |}.

(** The runs the examples below are evaluated on. *)

(** What the boto3 client does with the [Value] of a write before anything
    is sent: a value that is not a string fails the client's parameter
    validation, which raises [ParamValidationError], a botocore error that
    is not a [ClientError]; a string gets the answer [put]. *)
Definition validated_put (put : exn + unit) (req : put_request) : exn + unit :=
  match Value req with
  | JStr _ => put
  | _ => inl (BotoCoreError "ParamValidationError")
  end.

(** A run in which the credentials are read, Earthdata Login answers the
    first request with the error [invalid_credentials], KMS resolves the
    key, and SSM accepts every write whose value is a string. *)
Definition provider_error_world : world :=
  let base :=
    scripted_world (inr "user") (inr "secret") (inr "key-1") (inr tt)
      [HttpJson (JObj [("error", JStr "invalid_credentials")])] in
  {| ssm_get_parameter := ssm_get_parameter base;
     kms_describe_key := kms_describe_key base;
     ssm_put_parameter := fun _ req => validated_put (inr tt) req;
     http_request := http_request base;
     str_other := str_other base |}.

(** KMS cannot be reached: [describe_key] raises an exception that is not a
    [ClientError]. *)
Definition kms_unreachable_world : world :=
  scripted_world (inr "user") (inr "secret")
                 (inl (BotoCoreError "EndpointConnectionError")) (inr tt)
                 [HttpJson (JObj [("access_token", JStr "abc123")])].

(** A run that hits the token limit with two live tokens listed (and one
    entry without an [access_token]), then gets a fresh token. *)
Definition token_limit_script : list http_response :=
  [HttpJson (JObj [("error", JStr "max_token_limit")]);
   HttpJson (JArr (map JObj [[("access_token", JStr "t1")];
                             [("id", JNum 7)];
                             [("access_token", JStr "t2")]]));
   HttpNotJson;
   HttpJson JNull;
   HttpJson (JObj [("access_token", JStr "xyz789")])].

Definition token_limit_world : world :=
  scripted_world (inr "user") (inr "secret") (inr "key-1") (inr tt)
                 token_limit_script.

(** A first response that carries both an [error] and an [access_token]. *)
Definition error_with_token : list (string * json) :=
  [("error", JStr "invalid_credentials"); ("access_token", JStr "abc123")].

Definition error_with_token_world : world :=
  scripted_world (inr "user") (inr "secret") (inr "key-1") (inr tt)
                 [HttpJson (JObj error_with_token)].

Definition first_try_world : world :=
  scripted_world (inr "user") (inr "secret") (inr "key-1") (inr tt)
                 [HttpJson (JObj [("access_token", JStr "abc123")])].

Definition two_stores : result unit * list event :=
  store_token first_try_world (JStr "xyz789") (JStr "uds")
    (snd (store_token first_try_world (JStr "abc123") (JStr "uds") [])).

Definition no_key_world : world :=
  scripted_world (inr "user") (inr "secret")
                 (inl (ClientError "NotFoundException")) (inr tt)
                 [HttpJson (JObj [("access_token", JStr "abc123")])].

Definition no_credentials_world : world :=
  scripted_world (inl (ClientError "ParameterNotFound")) (inr "secret")
                 (inr "key-1") (inr tt)
                 [HttpJson (JObj [("access_token", JStr "abc123")])].

Definition empty_object_world : world :=
  scripted_world (inr "user") (inr "secret") (inr "key-1") (inr tt)
                 [HttpJson (JObj [])].

(** The token limit is hit, nothing is listed, and the second creation
    request is refused as well. *)
Definition still_limited_world : world :=
  scripted_world (inr "user") (inr "secret") (inr "key-1") (inr tt)
    [HttpJson (JObj [("error", JStr "max_token_limit")]);
     HttpJson (JArr []);
     HttpJson (JObj [("error", JStr "max_token_limit")])].

(** ** What a computation may add and raise *)

(** Every event [m] adds to a trace satisfies [P], whether [m] returns or
    raises; the trace it was given is kept as a prefix. *)
Definition emits {A} (P : event -> Prop) (m : M A) : Prop :=
  forall tr, exists added, snd (m tr) = tr ++ added /\ Forall P added.

(** Every exception [m] can end with satisfies [Q]. *)
Definition raises_only {A} (Q : exn -> Prop) (m : M A) : Prop :=
  forall tr e, fst (m tr) = Raise e -> Q e.

(** The exceptions of the [requests] calls and of the handling of their
    JSON bodies: none of them is a botocore error or a [SystemExit]. *)
Definition from_provider_call (e : exn) : bool :=
  match e with
  | RequestException _ | JSONDecodeError | KeyError _
  | AttributeError _ | TypeError => true
  | ClientError _ | BotoCoreError _ | SystemExit _ => false
  end.

(** The events [generate_token] may add: log lines and requests to the three
    endpoints, all with the [Accept] header and the given credentials. *)
Definition provider_event (username password url delete_url : string)
                          (ev : event) : Prop :=
  match ev with
  | ELog _ _ => True
  | EHttp m target headers u p =>
      headers = HEADERS /\ u = username /\ p = password /\
      (m = POST /\ target = url
       \/ m = GET /\ target = url +:+ "s"
       \/ m = POST /\ exists suffix, target = delete_url +:+ "=" +:+ suffix)
  | _ => False
  end.

Definition is_list_request (ev : event) : bool :=
  match ev with
  | EHttp GET _ _ _ _ => true
  | _ => false
  end.

Definition is_credential_read (ev : event) : bool :=
  match ev with
  | EGetParameter _ _ => true
  | _ => false
  end.

(** A write request is the one [store_token] builds, for some value and
    key id. *)
Definition is_token_write (req : put_request) : Prop :=
  Name req = "bearer--edl--token" /\
  Description req = "Temporary EDL bearer token" /\
  Type_ req = "SecureString" /\
  Overwrite req = true /\
  Tier req = "Standard".

(** The events a run of [lambda_handler] may add. *)
Definition run_event (ev : event) : Prop :=
  match ev with
  | ELog _ _ => True
  | EGetParameter name with_decryption =>
      with_decryption = true /\ (name = "edl_username" \/ name = "edl_password")
  | EDescribeKey _ => True
  | EPutParameter req => is_token_write req
  | EHttp _ target headers _ _ =>
      headers = HEADERS /\
      String.prefix "https://urs.earthdata.nasa.gov/api/users/" target = true
  end.

(** The first response is not a JSON object at all. *)
Definition no_json_world : world :=
  scripted_world (inr "user") (inr "secret") (inr "key-1") (inr tt) [HttpNotJson].

(** The token limit is hit and the list request is answered with an error
    object instead of an array. *)
Definition listing_refused_world : world :=
  scripted_world (inr "user") (inr "secret") (inr "key-1") (inr tt)
    [HttpJson (JObj [("error", JStr "max_token_limit")]);
     HttpJson (JObj [("error", JStr "invalid_credentials")])].

(** The token limit is hit and the listing holds a token, a string and
    another token. *)
Definition odd_listing_world : world :=
  scripted_world (inr "user") (inr "secret") (inr "key-1") (inr tt)
    [HttpJson (JObj [("error", JStr "max_token_limit")]);
     HttpJson (JArr [JObj [("access_token", JStr "t1")]; JStr "t2";
                     JObj [("access_token", JStr "t3")]]);
     HttpJson JNull].

(** The token limit is hit and the first revoke request fails in transit
    (the script ends after the listing). *)
Definition revoke_fails_world : world :=
  scripted_world (inr "user") (inr "secret") (inr "key-1") (inr tt)
    [HttpJson (JObj [("error", JStr "max_token_limit")]);
     HttpJson (JArr [JObj [("access_token", JStr "t1")];
                     JObj [("access_token", JStr "t2")]])].

(** The token limit is hit, the listing is an empty object, and the second
    creation request succeeds. *)
Definition empty_listing_world : world :=
  scripted_world (inr "user") (inr "secret") (inr "key-1") (inr tt)
    [HttpJson (JObj [("error", JStr "max_token_limit")]);
     HttpJson (JObj []);
     HttpJson (JObj [("access_token", JStr "xyz789")])].

Definition is_log (ev : event) : bool :=
  match ev with
  | ELog _ _ => true
  | _ => false
  end.

(** The token is obtained at once, the key is resolved, and SSM refuses the
    write. *)
Definition write_refused_world : world :=
  scripted_world (inr "user") (inr "secret") (inr "key-1")
                 (inl (ClientError "AccessDeniedException"))
                 [HttpJson (JObj [("access_token", JStr "abc123")])].

(** The username is read and the read of the password fails with an
    exception that is not a [ClientError]. *)
Definition unreachable_ssm_world : world :=
  scripted_world (inl (BotoCoreError "EndpointConnectionError")) (inr "secret")
                 (inr "key-1") (inr tt)
                 [HttpJson (JObj [("access_token", JStr "abc123")])].

(** The provider cannot be reached. *)
Definition offline_world : world :=
  scripted_world (inr "user") (inr "secret") (inr "key-1") (inr tt) [].

(** ** The logging set-up *)

(** The part of the [logging] module [get_logger] works on: the handler
    lists of the root logger and of the logger named after the module, that
    logger's level, and the formatter set on each handler.  A handler is an
    object, told apart by its identity; [next_handler] is the identity of
    the next object to be created. *)
Record logging_state : Type := LoggingState {
  root_handlers : list nat;
  module_handlers : list nat;
  module_level : Z;
  formatters : gmap nat string;
  next_handler : nat
}.

Inductive logger_name : Type := RootLogger | ModuleLogger.

Definition NOTSET : Z := 0.
Definition DEBUG : Z := 10.

(** [handlers.remove(h)]: the first occurrence goes. *)
Fixpoint list_remove_first (h : nat) (handlers : list nat) : list nat :=
  match handlers with
  | [] => []
  | x :: rest => if Nat.eqb x h then rest else x :: list_remove_first h rest
  end.

(** [Logger.removeHandler]: [if hdlr in self.handlers: self.handlers.remove(hdlr)]. *)
Definition removeHandler (h : nat) (handlers : list nat) : list nat :=
  if existsb (Nat.eqb h) handlers then list_remove_first h handlers else handlers.

(** [Logger.addHandler]: [if not (hdlr in self.handlers): self.handlers.append(hdlr)]. *)
Definition addHandler (h : nat) (handlers : list nat) : list nat :=
  if existsb (Nat.eqb h) handlers then handlers else handlers ++ [h].

(** [for handler in handlers: removeHandler(handler)], on the list object
    itself: the iterator holds an index into the list, reads the item at the
    index, moves on by one, and stops when the index is past the end of the
    list as it then is.  Returns the index and the list the loop stops with;
    [fuel] bounds the number of iterations. *)
Fixpoint remove_while_iterating (fuel index : nat) (handlers : list nat)
  : nat * list nat :=
  match fuel with
  | O => (index, handlers)
  | S fuel' =>
      match nth_error handlers index with
      | None => (index, handlers)
      | Some h => remove_while_iterating fuel' (S index) (removeHandler h handlers)
      end
  end.

Definition console_format : string :=
  "%(asctime)s - %(module)s - %(levelname)s : %(message)s".

Definition get_logger (st : logging_state) : logger_name * logging_state :=
  let root := snd (remove_while_iterating (length (root_handlers st)) 0
                                          (root_handlers st)) in
  let console_handler := next_handler st in
  (ModuleLogger,
   {| root_handlers := root;
      module_handlers := addHandler console_handler (module_handlers st);
      module_level := DEBUG;
      formatters := <[console_handler := console_format]> (formatters st);
      next_handler := S console_handler |}).

(** The state after [n] calls of [get_logger] in the same process. *)
Fixpoint get_logger_times (n : nat) (st : logging_state) : logging_state :=
  match n with
  | O => st
  | S n' => snd (get_logger (get_logger_times n' st))
  end.

(** Every handler the two loggers hold was created before [next_handler]. *)
Definition handlers_exist (st : logging_state) : Prop :=
  Forall (fun h => h < next_handler st) (root_handlers st ++ module_handlers st).

(** The items at positions 1, 3, 5, ... of a list. *)
Fixpoint odd_positions (handlers : list nat) : list nat :=
  match handlers with
  | _ :: kept :: rest => kept :: odd_positions rest
  | _ => []
  end.

(** A process in which the root logger holds three handlers and
    [get_logger] has not run yet. *)
Definition three_root_handlers : logging_state :=
  {| root_handlers := [0; 1; 2];
     module_handlers := [];
     module_level := NOTSET;
     formatters := ∅;
     next_handler := 3 |}.

(** ** Basic facts *)

Lemma key_in_dict_keys (key : string) (fields : list (string * json)) :
  key_in key (dict_keys fields) =
  match dict_get key fields with Some _ => true | None => false end.
Proof.
  induction fields as [|[k v] rest IH]; simpl; [reflexivity|].
  destruct (String.eqb key k); simpl; [reflexivity|exact IH].
Qed.

Lemma count_events_app (p : event -> bool) (l1 l2 : list event) :
  count_events p (l1 ++ l2) = count_events p l1 + count_events p l2.
Proof. unfold count_events. now rewrite List.filter_app, List.length_app. Qed.

Lemma put_requests_app (l1 l2 : list event) :
  put_requests (l1 ++ l2) = put_requests l1 ++ put_requests l2.
Proof.
  induction l1 as [|ev rest IH]; simpl; [reflexivity|].
  destruct ev; simpl; now rewrite ?IH.
Qed.

Lemma requests_call_returns (w : world) (m : http_method)
      (url username password : string) (tr : list event) (r : http_response) :
  http_request w tr m url HEADERS username password = r ->
  (forall msg, r <> HttpFail msg) ->
  requests_call w m url username password tr =
  (Ok r, tr ++ [EHttp m url HEADERS username password]).
Proof.
  intros Hr Hok. unfold requests_call. rewrite Hr.
  destruct r; try reflexivity. now destruct (Hok msg).
Qed.

Lemma requests_call_json (w : world) (m : http_method)
      (url username password : string) (tr : list event) (body : json) :
  http_request w tr m url HEADERS username password = HttpJson body ->
  requests_call w m url username password tr =
  (Ok (HttpJson body), tr ++ [EHttp m url HEADERS username password]).
Proof. intros Hr. apply requests_call_returns; [exact Hr|discriminate]. Qed.

(** ** First attempt of [generate_token] *)

(** The first response is an error other than the token limit. *)
Lemma generate_token_other_error (w : world) (username password turl durl : string)
      (tr : list event) (fields : list (string * json)) (code : json) :
  http_request w tr POST turl HEADERS username password = HttpJson (JObj fields) ->
  dict_get "error" fields = Some code ->
  py_eq_str code "max_token_limit" = false ->
  generate_token w username password turl durl tr =
  (Ok (JBool false), tr ++ [creation_event username password turl; error_log]).
Proof.
  intros Hresp Herr Hcode.
  unfold generate_token, bind, requests_post.
  rewrite (requests_call_json _ _ _ _ _ _ _ Hresp). simpl.
  rewrite key_in_dict_keys, Herr. simpl.
  rewrite Hcode. simpl. unfold creation_event, error_log.
  now rewrite <- app_assoc.
Qed.

(** The first response has no error field. *)
Lemma generate_token_no_error (w : world) (username password turl durl : string)
      (tr : list event) (fields : list (string * json)) :
  http_request w tr POST turl HEADERS username password = HttpJson (JObj fields) ->
  dict_get "error" fields = None ->
  generate_token w username password turl durl tr =
  match dict_get "access_token" fields with
  | Some token =>
      (Ok token, tr ++ [creation_event username password turl; success_log])
  | None =>
      (Raise (KeyError "access_token"), tr ++ [creation_event username password turl])
  end.
Proof.
  intros Hresp Herr.
  unfold generate_token, bind, requests_post.
  rewrite (requests_call_json _ _ _ _ _ _ _ Hresp). simpl.
  rewrite key_in_dict_keys, Herr. simpl.
  destruct (dict_get "access_token" fields) as [token|]; simpl.
  - unfold creation_event, success_log. now rewrite <- app_assoc.
  - reflexivity.
Qed.

(** ** Remediation *)

Section Remediation.

Variable w : world.
Variables username password turl durl : string.

Lemma revokes_return_tail (tr : list event) (v : json) (tokens : list json) :
  revokes_return w username password durl tr (v :: tokens) ->
  revokes_return w username password durl (tr ++ [revoke_event w username password durl v]) tokens.
Proof.
  intros H pre v' post Heq.
  rewrite <- app_assoc. simpl.
  apply (H (v :: pre) v' post). simpl. now rewrite Heq.
Qed.

Lemma revoke_loop_trace (entries : list (list (string * json))) :
  forall tr,
    revokes_return w username password durl tr (access_tokens entries) ->
    for_each (map JObj entries) (revoke_if_token w username password durl) tr =
    (Ok tt, tr ++ map (revoke_event w username password durl) (access_tokens entries)).
Proof.
  induction entries as [|fields rest IH]; intros tr Hret; simpl.
  - unfold ret. now rewrite app_nil_r.
  - unfold bind at 1. unfold revoke_if_token at 1. unfold bind at 1. simpl.
    rewrite key_in_dict_keys.
    simpl in Hret.
    destruct (dict_get "access_token" fields) as [v|] eqn:Hv; simpl.
    + unfold bind, ret, requests_post, requests_call.
      destruct (http_request w tr POST (durl +:+ "=" +:+ py_str w v) HEADERS
                             username password) as [body| |msg] eqn:Hr.
      * rewrite IH by (apply revokes_return_tail; exact Hret).
        now rewrite <- app_assoc.
      * rewrite IH by (apply revokes_return_tail; exact Hret).
        now rewrite <- app_assoc.
      * exfalso. apply (Hret [] v (access_tokens rest) eq_refl msg).
        simpl. rewrite app_nil_r. exact Hr.
    + apply IH. exact Hret.
Qed.

Variable tr : list event.
Variable entries : list (list (string * json)).
Variable retry : list (string * json).

Hypothesis list_response :
  http_request w tr GET (turl +:+ "s") HEADERS username password =
  HttpJson (JArr (map JObj entries)).
Hypothesis revoke_responses :
  revokes_return w username password durl
                 (tr ++ [list_event username password turl]) (access_tokens entries).
Hypothesis retry_response :
  http_request w
    ((tr ++ [list_event username password turl]) ++
        map (revoke_event w username password durl) (access_tokens entries))
    POST turl HEADERS username password =
  HttpJson (JObj retry).

Lemma handle_token_error_trace (token_data : json) :
  handle_token_error w token_data username password turl durl tr =
  match dict_get "error" retry, dict_get "access_token" retry with
  | Some _, _ =>
      (Ok (JBool false),
       ((tr ++ [list_event username password turl]) ++
        map (revoke_event w username password durl) (access_tokens entries)) ++
       [creation_event username password turl; error_log])
  | None, Some token =>
      (Ok token,
       ((tr ++ [list_event username password turl]) ++
        map (revoke_event w username password durl) (access_tokens entries)) ++
       [creation_event username password turl])
  | None, None =>
      (Raise (KeyError "access_token"),
       ((tr ++ [list_event username password turl]) ++
        map (revoke_event w username password durl) (access_tokens entries)) ++
       [creation_event username password turl])
  end.
Proof.
  pose proof revoke_responses as Hrevoke. pose proof retry_response as Hretry.
  unfold list_event in *.
  unfold handle_token_error, requests_get, requests_post.
  unfold bind at 1. rewrite (requests_call_json _ _ _ _ _ _ _ list_response).
  unfold bind at 1. simpl response_json. unfold ret at 1.
  unfold bind at 1. simpl py_iter. unfold ret at 1.
  unfold bind at 1. rewrite revoke_loop_trace by exact Hrevoke.
  unfold bind at 1. rewrite (requests_call_json _ _ _ _ _ _ _ Hretry).
  unfold bind. simpl. rewrite key_in_dict_keys.
  destruct (dict_get "error" retry) as [code|]; simpl.
  - unfold creation_event, error_log. now rewrite <- app_assoc.
  - now destruct (dict_get "access_token" retry).
Qed.

End Remediation.

(** [generate_token] when the first response is the token-limit error and the
    later requests all come back. *)
Lemma generate_token_remediation (w : world) (username password turl durl : string)
      (tr : list event) (first : list (string * json))
      (entries : list (list (string * json))) (retry : list (string * json)) :
  http_request w tr POST turl HEADERS username password = HttpJson (JObj first) ->
  dict_get "error" first = Some (JStr "max_token_limit") ->
  http_request w (tr ++ [creation_event username password turl])
               GET (turl +:+ "s") HEADERS username password =
  HttpJson (JArr (map JObj entries)) ->
  revokes_return w username password durl
                 (listed_trace username password turl tr) (access_tokens entries) ->
  http_request w (revoked_trace w username password turl durl tr entries)
               POST turl HEADERS username password = HttpJson (JObj retry) ->
  generate_token w username password turl durl tr =
  match dict_get "error" retry, dict_get "access_token" retry with
  | Some _, _ =>
      (Ok (JBool false),
       revoked_trace w username password turl durl tr entries ++
       [creation_event username password turl; error_log; success_log])
  | None, Some token =>
      (Ok token,
       revoked_trace w username password turl durl tr entries ++
       [creation_event username password turl; success_log])
  | None, None =>
      (Raise (KeyError "access_token"),
       revoked_trace w username password turl durl tr entries ++
       [creation_event username password turl])
  end.
Proof.
  intros Hfirst Hmax Hlist Hrevoke Hretry.
  unfold revoked_trace, listed_trace in *.
  replace (tr ++ [creation_event username password turl;
                  list_event username password turl])
    with ((tr ++ [creation_event username password turl]) ++
          [list_event username password turl]) in *
    by now rewrite <- app_assoc.
  unfold generate_token, requests_post.
  unfold bind at 1. rewrite (requests_call_json _ _ _ _ _ _ _ Hfirst).
  unfold bind at 1. simpl response_json. unfold ret at 1.
  unfold bind at 1. simpl py_keys. unfold ret at 1.
  rewrite key_in_dict_keys, Hmax.
  unfold bind at 1. simpl py_getitem. rewrite Hmax. unfold ret at 1.
  unfold py_eq_str. rewrite String.eqb_refl.
  unfold bind at 1. fold (creation_event username password turl).
  rewrite (handle_token_error_trace _ _ _ _ _ _ _ _ Hlist Hrevoke Hretry).
  destruct (dict_get "error" retry) as [code|].
  - unfold bind, logger_info, emit, ret. rewrite <- app_assoc. reflexivity.
  - destruct (dict_get "access_token" retry) as [token|].
    + unfold bind, logger_info, emit, ret. rewrite <- app_assoc. reflexivity.
    + reflexivity.
Qed.

Lemma py_eq_str_false (v : json) (s : string) :
  v <> JStr s -> py_eq_str v s = false.
Proof.
  intros Hne. destruct v; simpl; try reflexivity.
  apply String.eqb_neq. intros ->. now apply Hne.
Qed.

(** ** Counting requests *)

Section Counting.

Variable p : event -> bool.

Lemma adds_ret {A} (a : A) : adds_at_most p 0 (ret a).
Proof. intros tr. simpl. lia. Qed.

Lemma adds_raise {A} (e : exn) : adds_at_most p 0 (@raise A e).
Proof. intros tr. simpl. lia. Qed.

Lemma adds_weaken {A} (n k : nat) (m : M A) :
  n <= k -> adds_at_most p n m -> adds_at_most p k m.
Proof. intros Hle Hm tr. specialize (Hm tr). lia. Qed.

Lemma adds_bind {A B} (n k : nat) (m : M A) (f : A -> M B) :
  adds_at_most p n m ->
  (forall a, adds_at_most p k (f a)) ->
  adds_at_most p (n + k) (bind m f).
Proof.
  intros Hm Hf tr. unfold bind. specialize (Hm tr).
  destruct (m tr) as [[a|e] tr']; simpl in *.
  - specialize (Hf a tr'). lia.
  - lia.
Qed.

Lemma adds_emit (ev : event) : p ev = false -> adds_at_most p 0 (emit ev).
Proof.
  intros Hev tr. unfold emit. simpl.
  rewrite count_events_app. unfold count_events at 2. simpl. rewrite Hev.
  simpl. lia.
Qed.

Lemma adds_requests_call (w : world) (m : http_method)
      (url username password : string) :
  adds_at_most p (if p (EHttp m url HEADERS username password) then 1 else 0)
               (requests_call w m url username password).
Proof.
  intros tr. unfold requests_call.
  assert (Hone : count_events p (tr ++ [EHttp m url HEADERS username password]) =
                 count_events p tr +
                 (if p (EHttp m url HEADERS username password) then 1 else 0)).
  { rewrite count_events_app. unfold count_events at 2. simpl.
    now destruct (p (EHttp m url HEADERS username password)). }
  destruct (http_request w tr m url HEADERS username password); simpl; lia.
Qed.

Lemma adds_for_each {A} (items : list A) (body : A -> M unit) :
  (forall x, adds_at_most p 0 (body x)) ->
  adds_at_most p 0 (for_each items body).
Proof.
  intros Hbody. induction items as [|x rest IH]; simpl.
  - apply adds_ret.
  - apply (adds_bind 0 0); [apply Hbody|intros _; exact IH].
Qed.

Lemma adds_response_json (r : http_response) : adds_at_most p 0 (response_json r).
Proof. destruct r; simpl; [apply adds_ret|apply adds_raise..]. Qed.

Lemma adds_py_keys (v : json) : adds_at_most p 0 (py_keys v).
Proof. destruct v; simpl; try apply adds_raise. apply adds_ret. Qed.

Lemma adds_py_getitem (v : json) (key : string) :
  adds_at_most p 0 (py_getitem v key).
Proof.
  destruct v; simpl; try apply adds_raise.
  destruct (dict_get key fields); [apply adds_ret|apply adds_raise].
Qed.

Lemma adds_py_iter (v : json) : adds_at_most p 0 (py_iter v).
Proof. destruct v; simpl; try apply adds_raise; apply adds_ret. Qed.

End Counting.

(** No revoke URL is the token URL. *)
Lemma revoke_is_not_creation (suffix username password : string) :
  is_token_creation
    (EHttp POST (delete_token_url +:+ "=" +:+ suffix) HEADERS username password)
  = false.
Proof. reflexivity. Qed.

Lemma requests_get_creations (w : world) (url username password : string) :
  adds_at_most is_token_creation 0 (requests_get w url username password).
Proof. exact (adds_requests_call is_token_creation w GET url username password). Qed.

Lemma requests_post_creations (w : world) (username password : string) :
  adds_at_most is_token_creation 1 (requests_post w token_url username password).
Proof.
  exact (adds_requests_call is_token_creation w POST token_url username password).
Qed.

Lemma revoke_if_token_creations (w : world) (username password : string)
      (token : json) :
  adds_at_most is_token_creation 0
               (revoke_if_token w username password delete_token_url token).
Proof.
  unfold revoke_if_token.
  apply (adds_bind _ 0 0); [apply adds_py_keys|intros keys].
  destruct (key_in "access_token" keys); [|apply adds_ret].
  apply (adds_bind _ 0 0); [apply adds_py_getitem|intros v].
  apply (adds_bind _ 0 0); [|intros _; apply adds_ret].
  unfold requests_post.
  pose proof (adds_requests_call is_token_creation w POST
                (delete_token_url +:+ "=" +:+ py_str w v) username password) as H.
  rewrite revoke_is_not_creation in H. exact H.
Qed.

Lemma handle_token_error_creations (w : world) (token_data : json)
      (username password : string) :
  adds_at_most is_token_creation 1
               (handle_token_error w token_data username password
                                   token_url delete_token_url).
Proof.
  unfold handle_token_error.
  apply (adds_bind _ 0 1); [apply requests_get_creations|intros r].
  apply (adds_bind _ 0 1); [apply adds_response_json|intros data].
  apply (adds_bind _ 0 1); [apply adds_py_iter|intros tokens].
  apply (adds_bind _ 0 1).
  { apply adds_for_each. intros token. apply revoke_if_token_creations. }
  intros _.
  apply (adds_bind _ 1 0); [apply requests_post_creations|intros r2].
  apply (adds_bind _ 0 0); [apply adds_response_json|intros data2].
  apply (adds_bind _ 0 0); [apply adds_py_keys|intros keys].
  destruct (key_in "error" keys).
  - apply (adds_bind _ 0 0); [now apply adds_emit|intros _; apply adds_ret].
  - apply adds_py_getitem.
Qed.

Lemma generate_token_creations (w : world) (username password : string) :
  adds_at_most is_token_creation 2
               (generate_token w username password token_url delete_token_url).
Proof.
  unfold generate_token.
  apply (adds_bind _ 1 1); [apply requests_post_creations|intros r].
  apply (adds_bind _ 0 1); [apply adds_response_json|intros data].
  apply (adds_bind _ 0 1); [apply adds_py_keys|intros keys].
  destruct (key_in "error" keys).
  - apply (adds_bind _ 0 1); [apply adds_py_getitem|intros code].
    destruct (py_eq_str code "max_token_limit").
    + apply (adds_bind _ 1 0); [apply handle_token_error_creations|intros token].
      apply (adds_bind _ 0 0); [now apply adds_emit|intros _; apply adds_ret].
    + apply (adds_weaken _ 0); [lia|].
      apply (adds_bind _ 0 0); [now apply adds_emit|intros _; apply adds_ret].
  - apply (adds_weaken _ 0); [lia|].
    apply (adds_bind _ 0 0); [apply adds_py_getitem|intros token].
    apply (adds_bind _ 0 0); [now apply adds_emit|intros _; apply adds_ret].
Qed.

(** ** The two boto3 functions, case by case *)

Lemma store_token_cases (w : world) (token prefix : json) (tr : list event) :
  store_token w token prefix tr =
  let resolve := EDescribeKey (key_alias w prefix) in
  match kms_describe_key w tr (key_alias w prefix) with
  | inl (ClientError msg) =>
      (Raise (ClientError msg), tr ++ [resolve; store_error_log; ELog ERROR msg])
  | inl e => (Raise e, tr ++ [resolve])
  | inr key =>
      let write := EPutParameter (token_parameter token key) in
      match ssm_put_parameter w (tr ++ [resolve]) (token_parameter token key) with
      | inl (ClientError msg) =>
          (Raise (ClientError msg),
           tr ++ [resolve; write; store_error_log; ELog ERROR msg])
      | inl e => (Raise e, tr ++ [resolve; write])
      | inr _ => (Ok tt, tr ++ [resolve; write; stored_log])
      end
  end.
Proof.
  unfold store_token, try_except_ClientError, bind, describe_key, put_parameter,
    aws_call, logger_info, logger_error, emit, raise.
  fold (key_alias w prefix).
  destruct (kms_describe_key w tr (key_alias w prefix)) as [e|key]; cbv zeta.
  - destruct e; rewrite <- ?app_assoc; reflexivity.
  - fold (token_parameter token key).
    destruct (ssm_put_parameter w (tr ++ [EDescribeKey (key_alias w prefix)])
                                (token_parameter token key)) as [e|[]].
    + destruct e; rewrite <- ?app_assoc; reflexivity.
    + rewrite <- !app_assoc. reflexivity.
Qed.

Lemma get_edl_creds_cases (w : world) (tr : list event) :
  get_edl_creds w tr =
  let read_user := EGetParameter "edl_username" true in
  let read_pass := EGetParameter "edl_password" true in
  match ssm_get_parameter w tr "edl_username" true with
  | inl (ClientError msg) =>
      (Raise (ClientError msg),
       tr ++ [read_user; credentials_error_log; ELog ERROR msg])
  | inl e => (Raise e, tr ++ [read_user])
  | inr username =>
      match ssm_get_parameter w (tr ++ [read_user]) "edl_password" true with
      | inl (ClientError msg) =>
          (Raise (ClientError msg),
           tr ++ [read_user; read_pass; credentials_error_log; ELog ERROR msg])
      | inl e => (Raise e, tr ++ [read_user; read_pass])
      | inr password =>
          (Ok (username, password), tr ++ [read_user; read_pass; credentials_log])
      end
  end.
Proof.
  unfold get_edl_creds, try_except_ClientError, bind, get_parameter,
    aws_call, logger_info, logger_error, emit, raise, ret.
  destruct (ssm_get_parameter w tr "edl_username" true) as [e|username]; cbv zeta.
  - destruct e; rewrite <- ?app_assoc; reflexivity.
  - destruct (ssm_get_parameter w (tr ++ [EGetParameter "edl_username" true])
                                "edl_password" true) as [e|password].
    + destruct e; rewrite <- ?app_assoc; reflexivity.
    + rewrite <- !app_assoc. reflexivity.
Qed.

(** Whatever [get_edl_creds] raises ends the run: a [ClientError] as exit
    status 1, anything else as it is. *)
Lemma lambda_handler_credentials_raise {C : Type} (w : world)
      (tr tr' : list event) (e : exn) (event : json) (context : C) :
  get_edl_creds w (tr ++ [start_log]) = (Raise e, tr') ->
  lambda_handler w event context tr =
  match e with
  | ClientError _ => (Raise (SystemExit 1), tr' ++ [exit_log])
  | _ => (Raise e, tr')
  end.
Proof.
  intros Hcreds.
  unfold lambda_handler, bind at 1, logger_info at 1, emit.
  unfold try_except_ClientError. unfold bind at 1.
  fold start_log. rewrite Hcreds. now destruct e.
Qed.

Lemma revoke_events_are_not_creations (w : world) (username password : string)
      (tokens : list json) :
  count_events is_token_creation
    (map (revoke_event w username password delete_token_url) tokens) = 0.
Proof.
  induction tokens as [|v rest IH]; [reflexivity|].
  unfold count_events in *. cbn [map List.filter].
  unfold revoke_event at 1. rewrite revoke_is_not_creation. exact IH.
Qed.

(** Once a token value is in hand, [lambda_handler] stores it whatever it is,
    and only then looks at it. *)
Lemma lambda_handler_after_token {C : Type} (w : world)
      (tr tr1 tr2 : list event) (username password : string) (token prefix : json)
      (fields : list (string * json)) (context : C) :
  get_edl_creds w (tr ++ [start_log]) = (Ok (username, password), tr1) ->
  generate_token w username password token_url delete_token_url tr1 =
  (Ok token, tr2) ->
  dict_get "prefix" fields = Some prefix ->
  lambda_handler w (JObj fields) context tr =
  match store_token w token prefix tr2 with
  | (Ok _, tr3) =>
      if py_truthy token then (Ok tt, tr3)
      else (Raise (SystemExit 1), tr3 ++ [exit_log])
  | (Raise (ClientError _), tr3) => (Raise (SystemExit 1), tr3 ++ [exit_log])
  | (Raise e, tr3) => (Raise e, tr3)
  end.
Proof.
  intros Hcreds Htoken Hprefix.
  unfold lambda_handler, bind at 1, logger_info at 1, emit.
  unfold try_except_ClientError. unfold bind at 1.
  fold start_log. rewrite Hcreds. simpl fst. simpl snd.
  unfold bind at 1. rewrite Htoken.
  unfold bind at 1. simpl py_getitem. rewrite Hprefix. unfold ret at 1.
  unfold bind at 1.
  destruct (store_token w token prefix tr2) as [[[]|e] tr3].
  - destruct (py_truthy token); reflexivity.
  - destruct e; reflexivity.
Qed.

(** * The claims *)

(** ** C1 *)

(** C1, evaluated on the code: in a run where [generate_token] fails with a
    provider error, [lambda_handler] still calls [store_token] with the value
    [False], before the [if not token] test: the key alias is resolved and
    [put_parameter] is called with [Value=False].  The client refuses that
    value with [ParamValidationError], which no [except] clause catches: the
    run ends with that exception, [Program exiting.] is never logged and the
    exit with status 1 is never reached. *)
Theorem failure_outcome_still_calls_put_parameter :
  lambda_handler provider_error_world (JObj [("prefix", JStr "uds")]) tt [] =
  (Raise (BotoCoreError "ParamValidationError"),
   [ELog INFO "Attempting to create token.";
    EGetParameter "edl_username" true;
    EGetParameter "edl_password" true;
    ELog INFO "Retrieved EDL username and password.";
    EHttp POST "https://urs.earthdata.nasa.gov/api/users/token"
          [("Accept", "application/json")] "user" "secret";
    ELog ERROR "Error encountered when trying to retrieve bearer token from EDL.";
    EDescribeKey "alias/uds-ssm-parameter-store";
    EPutParameter {| Name := "bearer--edl--token";
                     Description := "Temporary EDL bearer token";
                     Value := JBool false;
                     Type_ := "SecureString";
                     KeyId := "key-1";
                     Overwrite := true;
                     Tier := "Standard" |}]).
Proof. vm_compute. reflexivity. Qed.

(** ** C2 *)

(** C2: when the first token-creation response is an object whose [error]
    is [max_token_limit], the list request answers with an array of objects
    and every request comes back, [generate_token] sends, in this order, the
    creation request, one list request, one revoke request for each listed
    entry that has an [access_token] (the others are skipped) and one more
    creation request, and nothing else.  It returns the new token when the
    second response has an [access_token] and no [error], and [False] when
    it has an [error]. *)
Theorem max_token_limit_remediation (w : world)
      (username password turl durl : string) (tr : list event)
      (first : list (string * json)) (entries : list (list (string * json)))
      (retry : list (string * json)) :
  http_request w tr POST turl HEADERS username password = HttpJson (JObj first) ->
  dict_get "error" first = Some (JStr "max_token_limit") ->
  http_request w (tr ++ [creation_event username password turl])
               GET (turl +:+ "s") HEADERS username password =
  HttpJson (JArr (map JObj entries)) ->
  revokes_return w username password durl
                 (listed_trace username password turl tr) (access_tokens entries) ->
  http_request w (revoked_trace w username password turl durl tr entries)
               POST turl HEADERS username password = HttpJson (JObj retry) ->
  (forall token,
     dict_get "error" retry = None ->
     dict_get "access_token" retry = Some token ->
     generate_token w username password turl durl tr =
     (Ok token,
      tr ++ [creation_event username password turl;
             list_event username password turl] ++
      map (revoke_event w username password durl) (access_tokens entries) ++
      [creation_event username password turl; success_log]))
  /\
  (forall code,
     dict_get "error" retry = Some code ->
     generate_token w username password turl durl tr =
     (Ok (JBool false),
      tr ++ [creation_event username password turl;
             list_event username password turl] ++
      map (revoke_event w username password durl) (access_tokens entries) ++
      [creation_event username password turl; error_log; success_log])).
Proof.
  intros Hfirst Hmax Hlist Hrevoke Hretry.
  pose proof (generate_token_remediation _ _ _ _ _ _ _ _ _
                Hfirst Hmax Hlist Hrevoke Hretry) as Hrun.
  unfold revoked_trace, listed_trace in Hrun.
  split.
  - intros token Hnone Hsome. rewrite Hnone, Hsome in Hrun.
    rewrite Hrun. now rewrite <- !app_assoc.
  - intros code Hsome. rewrite Hsome in Hrun.
    rewrite Hrun. now rewrite <- !app_assoc.
Qed.

Lemma max_token_limit_remediation_witness :
  generate_token token_limit_world "user" "secret" token_url delete_token_url [] =
  (Ok (JStr "xyz789"),
   [creation_event "user" "secret" token_url;
    list_event "user" "secret" token_url;
    EHttp POST "https://urs.earthdata.nasa.gov/api/users/revoke_token?token=t1"
          HEADERS "user" "secret";
    EHttp POST "https://urs.earthdata.nasa.gov/api/users/revoke_token?token=t2"
          HEADERS "user" "secret";
    creation_event "user" "secret" token_url;
    success_log]).
Proof.
  apply (proj1 (max_token_limit_remediation
                  token_limit_world "user" "secret" token_url delete_token_url []
                  [("error", JStr "max_token_limit")]
                  [[("access_token", JStr "t1")]; [("id", JNum 7)];
                   [("access_token", JStr "t2")]]
                  [("access_token", JStr "xyz789")]
                  eq_refl eq_refl eq_refl
                  (fun pre =>
                     match pre with
                     | [] => fun v post Heq msg Hfail =>
                         ltac:(injection Heq as <- <-; vm_compute in Hfail;
                               discriminate Hfail)
                     | [_] => fun v post Heq msg Hfail =>
                         ltac:(injection Heq as <- <- <-; vm_compute in Hfail;
                               discriminate Hfail)
                     | _ :: _ :: _ :: _ => fun v post Heq msg Hfail =>
                         ltac:(discriminate Heq)
                     | [_; _] => fun v post Heq msg Hfail =>
                         ltac:(destruct post; discriminate Heq)
                     end)
                  eq_refl));
    reflexivity.
Defined.

(** ** C3 *)

(** C3 as stated fails: the first response contains the [access_token]
    ["abc123"], yet [generate_token] looks at the [error] field first and
    returns [False], not the token. *)
Lemma access_token_beside_error_is_ignored :
  http_request error_with_token_world [] POST token_url HEADERS "user" "secret" =
  HttpJson (JObj error_with_token) /\
  dict_get "access_token" error_with_token = Some (JStr "abc123") /\
  generate_token error_with_token_world "user" "secret"
                 token_url delete_token_url [] =
  (Ok (JBool false), [creation_event "user" "secret" token_url; error_log]) /\
  Ok (JBool false) <> Ok (JStr "abc123").
Proof. repeat split; try reflexivity. discriminate. Qed.

(** C3, amended: when the first token-creation response is an object with an
    [access_token] field and no [error] field, [generate_token] returns
    exactly that value; the creation request is the only request it sends
    (no list request, no revoke request). *)
Theorem first_response_token_is_returned (w : world)
      (username password turl durl : string) (tr : list event)
      (fields : list (string * json)) (token : json) :
  http_request w tr POST turl HEADERS username password = HttpJson (JObj fields) ->
  dict_get "error" fields = None ->
  dict_get "access_token" fields = Some token ->
  generate_token w username password turl durl tr =
  (Ok token, tr ++ [creation_event username password turl; success_log]).
Proof.
  intros Hresp Hnone Hsome.
  rewrite (generate_token_no_error _ _ _ _ _ _ _ Hresp Hnone).
  now rewrite Hsome.
Qed.

Lemma first_response_token_is_returned_witness :
  generate_token first_try_world "user" "secret" token_url delete_token_url [] =
  (Ok (JStr "abc123"), [creation_event "user" "secret" token_url; success_log]).
Proof.
  apply (first_response_token_is_returned
           first_try_world "user" "secret" token_url delete_token_url []
           [("access_token", JStr "abc123")] (JStr "abc123"));
    reflexivity.
Defined.

(** ** C4 *)

(** C4: whatever the world answers and whether [generate_token] returns or
    raises, it adds at most two token-creation requests to the trace, so a
    third one is never sent; and when the first response is the
    [max_token_limit] error, the list request answers with an array of
    objects and every request comes back, it adds exactly two: the first
    attempt and one retry. *)
Theorem at_most_two_creation_requests (w : world) (username password : string)
        (tr : list event) :
  count_events is_token_creation
    (snd (generate_token w username password token_url delete_token_url tr))
  <= count_events is_token_creation tr + 2
  /\
  forall (first : list (string * json)) (entries : list (list (string * json)))
         (retry : list (string * json)),
    http_request w tr POST token_url HEADERS username password =
    HttpJson (JObj first) ->
    dict_get "error" first = Some (JStr "max_token_limit") ->
    http_request w (tr ++ [creation_event username password token_url])
                 GET (token_url +:+ "s") HEADERS username password =
    HttpJson (JArr (map JObj entries)) ->
    revokes_return w username password delete_token_url
                   (listed_trace username password token_url tr)
                   (access_tokens entries) ->
    http_request w
      (revoked_trace w username password token_url delete_token_url tr entries)
      POST token_url HEADERS username password = HttpJson (JObj retry) ->
    count_events is_token_creation
      (snd (generate_token w username password token_url delete_token_url tr))
    = count_events is_token_creation tr + 2.
Proof.
  split; [apply generate_token_creations|].
  intros first entries retry Hfirst Hmax Hlist Hrevoke Hretry.
  rewrite (generate_token_remediation _ _ _ _ _ _ _ _ _
             Hfirst Hmax Hlist Hrevoke Hretry).
  assert (Hrevoked :
            count_events is_token_creation
              (revoked_trace w username password token_url delete_token_url
                             tr entries) =
            count_events is_token_creation tr + 1).
  { unfold revoked_trace, listed_trace.
    rewrite !count_events_app, revoke_events_are_not_creations.
    unfold count_events at 2. simpl. lia. }
  destruct (dict_get "error" retry) as [code|];
    [|destruct (dict_get "access_token" retry) as [token|]];
    cbn [snd]; rewrite count_events_app, Hrevoked;
    unfold count_events at 2; simpl; lia.
Qed.

Lemma at_most_two_creation_requests_witness :
  count_events is_token_creation
    (snd (generate_token token_limit_world "user" "secret"
            token_url delete_token_url [])) = 2.
Proof.
  apply (proj2 (at_most_two_creation_requests
                  token_limit_world "user" "secret" [])
               [("error", JStr "max_token_limit")]
               [[("access_token", JStr "t1")]; [("id", JNum 7)];
                [("access_token", JStr "t2")]]
               [("access_token", JStr "xyz789")]
               eq_refl eq_refl eq_refl
               (fun pre =>
                  match pre with
                  | [] => fun v post Heq msg Hfail =>
                      ltac:(injection Heq as <- <-; vm_compute in Hfail;
                            discriminate Hfail)
                  | [_] => fun v post Heq msg Hfail =>
                      ltac:(injection Heq as <- <- <-; vm_compute in Hfail;
                            discriminate Hfail)
                  | _ :: _ :: _ :: _ => fun v post Heq msg Hfail =>
                      ltac:(discriminate Heq)
                  | [_; _] => fun v post Heq msg Hfail =>
                      ltac:(destruct post; discriminate Heq)
                  end)
               eq_refl).
Defined.

(** ** C5 *)

(** C5: when the first token-creation response is an object whose [error]
    field is anything but [max_token_limit], [generate_token] logs the error
    and returns [False]; it raises nothing and the creation request is the
    only request it sends. *)
Theorem other_error_fails_without_remediation (w : world)
      (username password turl durl : string) (tr : list event)
      (fields : list (string * json)) (code : json) :
  http_request w tr POST turl HEADERS username password = HttpJson (JObj fields) ->
  dict_get "error" fields = Some code ->
  code <> JStr "max_token_limit" ->
  generate_token w username password turl durl tr =
  (Ok (JBool false),
   tr ++ [creation_event username password turl;
          ELog ERROR "Error encountered when trying to retrieve bearer token from EDL."]).
Proof.
  intros Hresp Herr Hcode.
  apply (generate_token_other_error _ _ _ _ _ _ _ _ Hresp Herr).
  now apply py_eq_str_false.
Qed.

Lemma other_error_fails_without_remediation_witness :
  generate_token provider_error_world "user" "secret"
                 token_url delete_token_url [] =
  (Ok (JBool false),
   [creation_event "user" "secret" token_url;
    ELog ERROR "Error encountered when trying to retrieve bearer token from EDL."]).
Proof.
  apply (other_error_fails_without_remediation
           provider_error_world "user" "secret" token_url delete_token_url []
           [("error", JStr "invalid_credentials")] (JStr "invalid_credentials"));
    [reflexivity | reflexivity | discriminate].
Defined.

(** ** C6 *)

Lemma ssm_replay_two_writes (req1 req2 : put_request)
      (store : gmap string put_request) :
  Overwrite req2 = true ->
  Name req1 = Name req2 ->
  Overwrite req1 = true ->
  ssm_replay [req1; req2] store = <[Name req2 := req2]> store.
Proof.
  intros Ho2 Hname Ho1. unfold ssm_replay, ssm_write. simpl.
  rewrite Ho1, Ho2, Hname. apply insert_insert_eq.
Qed.

(** C6: a call of [store_token] that returns has resolved the alias
    [alias/{prefix}-ssm-parameter-store] to a key id and sent exactly one
    write, with name [bearer--edl--token], description [Temporary EDL bearer
    token], the given token as value, type [SecureString], that key id,
    overwrite enabled and tier [Standard].  When a second call returns after
    it, the store holds, under that name, the second write only. *)
Theorem store_token_writes_and_overwrites (w : world)
      (token1 prefix1 : json) (tr0 tr1 : list event) :
  store_token w token1 prefix1 tr0 = (Ok tt, tr1) ->
  exists key1 : string,
    let write1 := {| Name := "bearer--edl--token";
                     Description := "Temporary EDL bearer token";
                     Value := token1;
                     Type_ := "SecureString";
                     KeyId := key1;
                     Overwrite := true;
                     Tier := "Standard" |} in
    kms_describe_key w tr0
      ("alias/" +:+ py_str w prefix1 +:+ "-ssm-parameter-store") = inr key1 /\
    tr1 = tr0 ++
          [EDescribeKey ("alias/" +:+ py_str w prefix1 +:+ "-ssm-parameter-store");
           EPutParameter write1; stored_log] /\
    forall (token2 prefix2 : json) (tr2 : list event),
      store_token w token2 prefix2 tr1 = (Ok tt, tr2) ->
      exists key2 : string,
        let write2 := {| Name := "bearer--edl--token";
                         Description := "Temporary EDL bearer token";
                         Value := token2;
                         Type_ := "SecureString";
                         KeyId := key2;
                         Overwrite := true;
                         Tier := "Standard" |} in
        kms_describe_key w tr1
          ("alias/" +:+ py_str w prefix2 +:+ "-ssm-parameter-store") = inr key2 /\
        tr2 = tr1 ++
              [EDescribeKey ("alias/" +:+ py_str w prefix2 +:+ "-ssm-parameter-store");
               EPutParameter write2; stored_log] /\
        put_requests (skipn (length tr0) tr2) = [write1; write2] /\
        forall store : gmap string put_request,
          ssm_replay (put_requests (skipn (length tr0) tr2)) store =
          <["bearer--edl--token" := write2]> store /\
          ssm_replay (put_requests (skipn (length tr0) tr2)) store
            !! "bearer--edl--token" = Some write2.
Proof.
  intros Hfirst.
  rewrite store_token_cases in Hfirst. cbv zeta in Hfirst. unfold key_alias in *.
  destruct (kms_describe_key w tr0 _) as [e|key1];
    [destruct e; discriminate Hfirst|].
  destruct (ssm_put_parameter w _ (token_parameter token1 key1)) as [e|[]];
    [destruct e; discriminate Hfirst|].
  injection Hfirst as <-.
  exists key1. cbv zeta. split; [reflexivity|]. split; [reflexivity|].
  intros token2 prefix2 tr2 Hsecond.
  rewrite store_token_cases in Hsecond. cbv zeta in Hsecond.
  unfold key_alias in *.
  destruct (kms_describe_key w _ _) as [e|key2];
    [destruct e; discriminate Hsecond|].
  destruct (ssm_put_parameter w _ (token_parameter token2 key2)) as [e|[]];
    [destruct e; discriminate Hsecond|].
  injection Hsecond as <-.
  exists key2. cbv zeta. split; [reflexivity|]. split; [reflexivity|].
  rewrite <- (app_assoc tr0), List.skipn_app, List.skipn_all, Nat.sub_diag.
  cbn [skipn app put_requests].
  split; [reflexivity|]. intros store. split.
  - now apply ssm_replay_two_writes.
  - transitivity
      ((<["bearer--edl--token" := token_parameter token2 key2]> store)
         !! "bearer--edl--token");
      [|apply lookup_insert_eq].
    f_equal. now apply ssm_replay_two_writes.
Qed.

Lemma store_token_writes_and_overwrites_witness :
  exists key1 key2 : string,
    kms_describe_key first_try_world [] "alias/uds-ssm-parameter-store" = inr key1 /\
    put_requests (snd two_stores) =
    [token_parameter (JStr "abc123") key1; token_parameter (JStr "xyz789") key2] /\
    forall store : gmap string put_request,
      ssm_replay (put_requests (snd two_stores)) store !! "bearer--edl--token" =
      Some (token_parameter (JStr "xyz789") key2).
Proof.
  destruct (store_token_writes_and_overwrites
              first_try_world (JStr "abc123") (JStr "uds")
              [] (snd (store_token first_try_world (JStr "abc123") (JStr "uds") []))
              eq_refl)
    as (key1 & Hkey1 & _ & Hnext).
  destruct (Hnext (JStr "xyz789") (JStr "uds") (snd two_stores) eq_refl)
    as (key2 & _ & _ & Hwrites & Hstore).
  exists key1, key2. split; [exact Hkey1|]. split; [exact Hwrites|].
  intros store. exact (proj2 (Hstore store)).
Defined.

(** ** C7 *)

(** C7 as stated fails: when KMS cannot be reached, [describe_key] raises an
    exception that is not a [ClientError]; [store_token] raises it with
    nothing logged. *)
Lemma unreachable_kms_error_is_not_logged :
  kms_describe_key kms_unreachable_world [] "alias/uds-ssm-parameter-store" =
  inl (BotoCoreError "EndpointConnectionError") /\
  store_token kms_unreachable_world (JStr "abc123") (JStr "uds") [] =
  (Raise (BotoCoreError "EndpointConnectionError"),
   [EDescribeKey "alias/uds-ssm-parameter-store"]) /\
  count_events is_log
    (snd (store_token kms_unreachable_world (JStr "abc123") (JStr "uds") [])) = 0.
Proof. repeat split. Qed.

(** C7, amended: when resolving the key alias raises, [store_token] raises
    the same exception before any write is attempted: no write request is
    sent, so the store is as it was.  The two error lines are logged first
    when the exception is a [ClientError]; any other exception is raised
    with nothing logged. *)
Theorem key_resolution_failure_prevents_write (w : world) (token prefix : json)
        (tr : list event) (e : exn) :
  kms_describe_key w tr
    ("alias/" +:+ py_str w prefix +:+ "-ssm-parameter-store") = inl e ->
  store_token w token prefix tr =
  (Raise e,
   tr ++ [EDescribeKey ("alias/" +:+ py_str w prefix +:+ "-ssm-parameter-store")] ++
   match e with
   | ClientError msg =>
       [ELog ERROR "Could not store EDL bearer token in SSM Parameter Store.";
        ELog ERROR msg]
   | _ => []
   end) /\
  put_requests (snd (store_token w token prefix tr)) = put_requests tr /\
  (forall store : gmap string put_request,
     ssm_replay (put_requests (snd (store_token w token prefix tr))) store =
     ssm_replay (put_requests tr) store).
Proof.
  intros Hkey.
  assert (Hrun :
            store_token w token prefix tr =
            (Raise e,
             tr ++ [EDescribeKey
                      ("alias/" +:+ py_str w prefix +:+ "-ssm-parameter-store")] ++
             match e with
             | ClientError msg => [store_error_log; ELog ERROR msg]
             | _ => []
             end)).
  { rewrite store_token_cases. cbv zeta. unfold key_alias.
    rewrite Hkey. now destruct e. }
  assert (Hputs : put_requests (snd (store_token w token prefix tr)) =
                  put_requests tr).
  { rewrite Hrun. cbn [snd]. rewrite put_requests_app.
    destruct e; simpl; now rewrite app_nil_r. }
  split; [exact Hrun|]. split; [exact Hputs|].
  intros store. now rewrite Hputs.
Qed.

Lemma key_resolution_failure_prevents_write_witness :
  store_token no_key_world (JStr "abc123") (JStr "uds") [] =
  (Raise (ClientError "NotFoundException"),
   [EDescribeKey "alias/uds-ssm-parameter-store";
    ELog ERROR "Could not store EDL bearer token in SSM Parameter Store.";
    ELog ERROR "NotFoundException"]) /\
  put_requests (snd (store_token no_key_world (JStr "abc123") (JStr "uds") [])) = [].
Proof.
  destruct (key_resolution_failure_prevents_write
              no_key_world (JStr "abc123") (JStr "uds") []
              (ClientError "NotFoundException") eq_refl)
    as (Hrun & Hputs & _).
  split; [exact Hrun|exact Hputs].
Defined.

(** ** C8 *)

(** C8 as stated fails: when SSM cannot be reached, the read raises an
    exception that is not a [ClientError]; [lambda_handler] logs no error and
    ends with that exception, not with exit status 1. *)
Lemma unreachable_store_ends_without_exit_status :
  ssm_get_parameter unreachable_ssm_world [ELog INFO "Attempting to create token."]
                    "edl_username" true =
  inl (BotoCoreError "EndpointConnectionError") /\
  lambda_handler unreachable_ssm_world (JObj [("prefix", JStr "uds")]) tt [] =
  (Raise (BotoCoreError "EndpointConnectionError"),
   [ELog INFO "Attempting to create token.";
    EGetParameter "edl_username" true]) /\
  Raise (BotoCoreError "EndpointConnectionError") <> @Raise unit (SystemExit 1).
Proof. repeat split. discriminate. Qed.

(** C8, amended: when reading either credential raises, [lambda_handler]
    sends no request to the identity provider, resolves no key and writes no
    parameter.  When the exception is a [ClientError], the error is logged
    and the run exits with status 1; any other exception ends the run as it
    is, and the only line logged is the first line of the run. *)
Theorem credential_failure_fails_fast {C : Type} (w : world) (tr : list event)
        (e : exn) (event : json) (context : C) :
  ssm_get_parameter w (tr ++ [ELog INFO "Attempting to create token."])
                    "edl_username" true = inl e
  \/ (exists username : string,
        ssm_get_parameter w (tr ++ [ELog INFO "Attempting to create token."])
                          "edl_username" true = inr username /\
        ssm_get_parameter w ((tr ++ [ELog INFO "Attempting to create token."]) ++
                             [EGetParameter "edl_username" true])
                          "edl_password" true = inl e) ->
  exists emitted,
    lambda_handler w event context tr =
    (Raise match e with ClientError _ => SystemExit 1 | _ => e end,
     tr ++ emitted) /\
    Forall (fun ev => is_outbound_call ev = false) emitted /\
    match e with
    | ClientError msg =>
        In (ELog ERROR "Could not retrieve EDL credentials from SSM Parameter Store.")
           emitted /\
        In (ELog ERROR msg) emitted /\
        In (ELog INFO "Program exiting.") emitted
    | _ =>
        forall lvl line, In (ELog lvl line) emitted ->
                         ELog lvl line = ELog INFO "Attempting to create token."
    end.
Proof.
  intros Hread.
  assert (Hcreds :
            exists reads,
              get_edl_creds w (tr ++ [start_log]) =
              (Raise e,
               (tr ++ [start_log]) ++ reads ++
               match e with
               | ClientError msg => [credentials_error_log; ELog ERROR msg]
               | _ => []
               end) /\
              Forall (fun ev => is_credential_read ev = true) reads).
  { rewrite get_edl_creds_cases. cbv zeta. unfold start_log.
    destruct Hread as [Huser|(username & Huser & Hpass)].
    - exists [EGetParameter "edl_username" true]. rewrite Huser.
      split; [now destruct e|now repeat constructor].
    - exists [EGetParameter "edl_username" true; EGetParameter "edl_password" true].
      rewrite Huser, Hpass.
      split; [now destruct e|now repeat constructor]. }
  destruct Hcreds as (reads & Hcreds & Hreads).
  rewrite (lambda_handler_credentials_raise w tr _ e _ _ Hcreds).
  assert (Hquiet : Forall (fun ev => is_outbound_call ev = false) reads).
  { eapply List.Forall_impl; [|exact Hreads].
    intros ev. now destruct ev. }
  assert (Hnolog : forall lvl line, ~ In (ELog lvl line) reads).
  { intros lvl line Hin. rewrite List.Forall_forall in Hreads.
    specialize (Hreads _ Hin). discriminate Hreads. }
  destruct e as [msg| | | | | | |];
    [exists ([start_log] ++ reads ++
             [credentials_error_log; ELog ERROR msg; exit_log])
    |exists ([start_log] ++ reads)..];
    (split; [rewrite <- ?app_assoc, ?app_nil_r; reflexivity|]);
    (split;
     [apply Forall_app; split; [now repeat constructor|];
      try (apply Forall_app; split; [exact Hquiet|now repeat constructor]);
      exact Hquiet|]).
  1: { repeat split; apply in_or_app; right; apply in_or_app; right;
       simpl; auto. }
  all: intros lvl line Hin; apply in_app_or in Hin;
    destruct Hin as [[Heq|[]]|Hin]; [now rewrite <- Heq|];
    now destruct (Hnolog lvl line).
Qed.

Lemma credential_failure_fails_fast_witness :
  exists emitted,
    lambda_handler no_credentials_world (JObj [("prefix", JStr "uds")]) tt [] =
    (Raise (SystemExit 1), emitted) /\
    Forall (fun ev => is_outbound_call ev = false) emitted.
Proof.
  destruct (credential_failure_fails_fast
              no_credentials_world [] (ClientError "ParameterNotFound")
              (JObj [("prefix", JStr "uds")]) tt (or_introl eq_refl))
    as (emitted & Hrun & Hnone & _).
  exists emitted. split; [exact Hrun|exact Hnone].
Defined.

(** ** C9 *)

(** C9: when the first token-creation response is an object with no [error]
    field, [generate_token] raises [KeyError] if the object has no
    [access_token] field either, and it returns a value exactly when the
    object has one. *)
Theorem missing_access_token_raises_KeyError (w : world)
      (username password turl durl : string) (tr : list event)
      (fields : list (string * json)) :
  http_request w tr POST turl HEADERS username password = HttpJson (JObj fields) ->
  dict_get "error" fields = None ->
  (dict_get "access_token" fields = None ->
   generate_token w username password turl durl tr =
   (Raise (KeyError "access_token"), tr ++ [creation_event username password turl]))
  /\
  ((exists token, fst (generate_token w username password turl durl tr) = Ok token)
   <-> (exists token, dict_get "access_token" fields = Some token)).
Proof.
  intros Hresp Hnone.
  rewrite (generate_token_no_error _ _ _ _ _ _ _ Hresp Hnone).
  destruct (dict_get "access_token" fields) as [token|].
  - split; [discriminate|]. split; intros _; exists token; reflexivity.
  - split; [reflexivity|]. split; intros [token H]; discriminate H.
Qed.

Lemma missing_access_token_raises_KeyError_witness :
  generate_token empty_object_world "user" "secret"
                 token_url delete_token_url [] =
  (Raise (KeyError "access_token"), [creation_event "user" "secret" token_url]).
Proof.
  apply (proj1 (missing_access_token_raises_KeyError
                  empty_object_world "user" "secret" token_url delete_token_url
                  [] [] eq_refl eq_refl)).
  reflexivity.
Defined.

(** ** C10 *)

(** C10: when the first response is the [max_token_limit] error and the
    response to the second creation request has an [error] field too,
    [generate_token] returns the boolean [False] (it does not raise), and the
    last two events of the run are the error log line followed by the info
    line [Successfully generated EDL bearer token.]. *)
Theorem failed_retry_returns_False_and_logs_success (w : world)
      (username password turl durl : string) (tr : list event)
      (first : list (string * json)) (entries : list (list (string * json)))
      (retry : list (string * json)) (code : json) :
  http_request w tr POST turl HEADERS username password = HttpJson (JObj first) ->
  dict_get "error" first = Some (JStr "max_token_limit") ->
  http_request w (tr ++ [creation_event username password turl])
               GET (turl +:+ "s") HEADERS username password =
  HttpJson (JArr (map JObj entries)) ->
  revokes_return w username password durl
                 (listed_trace username password turl tr) (access_tokens entries) ->
  http_request w (revoked_trace w username password turl durl tr entries)
               POST turl HEADERS username password = HttpJson (JObj retry) ->
  dict_get "error" retry = Some code ->
  generate_token w username password turl durl tr =
  (Ok (JBool false),
   (revoked_trace w username password turl durl tr entries ++
    [creation_event username password turl]) ++
   [ELog ERROR "Error encountered when trying to retrieve bearer token from EDL.";
    ELog INFO "Successfully generated EDL bearer token."]).
Proof.
  intros Hfirst Hmax Hlist Hrevoke Hretry Hcode.
  rewrite (generate_token_remediation _ _ _ _ _ _ _ _ _
             Hfirst Hmax Hlist Hrevoke Hretry).
  rewrite Hcode. now rewrite <- !app_assoc.
Qed.

Lemma failed_retry_returns_False_and_logs_success_witness :
  generate_token still_limited_world "user" "secret"
                 token_url delete_token_url [] =
  (Ok (JBool false),
   [creation_event "user" "secret" token_url;
    list_event "user" "secret" token_url;
    creation_event "user" "secret" token_url;
    ELog ERROR "Error encountered when trying to retrieve bearer token from EDL.";
    ELog INFO "Successfully generated EDL bearer token."]).
Proof.
  apply (failed_retry_returns_False_and_logs_success
           still_limited_world "user" "secret" token_url delete_token_url []
           [("error", JStr "max_token_limit")] []
           [("error", JStr "max_token_limit")] (JStr "max_token_limit")
           eq_refl eq_refl eq_refl
           (fun pre v post Heq =>
              match app_cons_not_nil pre post v Heq with end)
           eq_refl eq_refl).
Defined.

(** * Further properties of the module *)

(** ** Composition rules *)

Section Emits.

Variable P : event -> Prop.

Lemma emits_ret {A} (a : A) : emits P (ret a).
Proof. intros tr. exists []. simpl. now rewrite app_nil_r. Qed.

Lemma emits_raise {A} (e : exn) : emits P (@raise A e).
Proof. intros tr. exists []. simpl. now rewrite app_nil_r. Qed.

Lemma emits_emit (ev : event) : P ev -> emits P (emit ev).
Proof. intros Hev tr. exists [ev]. simpl. split; [reflexivity|]. now repeat constructor. Qed.

Lemma emits_bind {A B} (m : M A) (f : A -> M B) :
  emits P m -> (forall a, emits P (f a)) -> emits P (bind m f).
Proof.
  intros Hm Hf tr. unfold bind.
  destruct (Hm tr) as (added & Heq & Hadded).
  destruct (m tr) as [[a|e] tr']; simpl in Heq; subst tr'.
  - destruct (Hf a (tr ++ added)) as (added' & Heq' & Hadded').
    exists (added ++ added'). rewrite Heq', <- app_assoc.
    split; [reflexivity|]. apply Forall_app. now split.
  - exists added. now split.
Qed.

Lemma emits_try_except {A} (body : M A) (handler : string -> M A) :
  emits P body -> (forall msg, emits P (handler msg)) ->
  emits P (try_except_ClientError body handler).
Proof.
  intros Hbody Hhandler tr. unfold try_except_ClientError.
  destruct (Hbody tr) as (added & Heq & Hadded).
  destruct (body tr) as [[a|e] tr']; simpl in Heq; subst tr'.
  - exists added. now split.
  - destruct e; try (exists added; now split).
    destruct (Hhandler msg (tr ++ added)) as (added' & Heq' & Hadded').
    exists (added ++ added'). rewrite Heq', <- app_assoc.
    split; [reflexivity|]. apply Forall_app. now split.
Qed.

Lemma emits_aws_call {A} (ev : event) (answer : list event -> exn + A) :
  P ev -> emits P (aws_call ev answer).
Proof.
  intros Hev tr. exists [ev]. unfold aws_call.
  destruct (answer tr); simpl; (split; [reflexivity|]); now repeat constructor.
Qed.

Lemma emits_requests_call (w : world) (m : http_method)
      (url username password : string) :
  P (EHttp m url HEADERS username password) ->
  emits P (requests_call w m url username password).
Proof.
  intros Hev tr. exists [EHttp m url HEADERS username password].
  unfold requests_call.
  destruct (http_request w tr m url HEADERS username password); simpl;
    (split; [reflexivity|]); now repeat constructor.
Qed.

Lemma emits_for_each {A} (items : list A) (body : A -> M unit) :
  (forall x, emits P (body x)) -> emits P (for_each items body).
Proof.
  intros Hbody. induction items as [|x rest IH]; simpl.
  - apply emits_ret.
  - apply emits_bind; [apply Hbody|intros _; exact IH].
Qed.

Lemma emits_response_json (r : http_response) : emits P (response_json r).
Proof. destruct r; simpl; [apply emits_ret|apply emits_raise..]. Qed.

Lemma emits_py_keys (v : json) : emits P (py_keys v).
Proof. destruct v; simpl; try apply emits_raise. apply emits_ret. Qed.

Lemma emits_py_getitem (v : json) (key : string) : emits P (py_getitem v key).
Proof.
  destruct v; simpl; try apply emits_raise.
  destruct (dict_get key fields); [apply emits_ret|apply emits_raise].
Qed.

Lemma emits_py_iter (v : json) : emits P (py_iter v).
Proof. destruct v; simpl; try apply emits_raise; apply emits_ret. Qed.

End Emits.

Lemma emits_weaken {A} (P Q : event -> Prop) (m : M A) :
  (forall ev, P ev -> Q ev) -> emits P m -> emits Q m.
Proof.
  intros Himp Hm tr. destruct (Hm tr) as (added & Heq & Hadded).
  exists added. split; [exact Heq|].
  eapply List.Forall_impl; [exact Himp|exact Hadded].
Qed.

Section RaisesOnly.

Variable Q : exn -> Prop.

Lemma raises_ret {A} (a : A) : raises_only Q (ret a).
Proof. intros tr e H. discriminate H. Qed.

Lemma raises_raise {A} (e : exn) : Q e -> raises_only Q (@raise A e).
Proof. intros He tr e' H. simpl in H. now injection H as <-. Qed.

Lemma raises_emit (ev : event) : raises_only Q (emit ev).
Proof. intros tr e H. discriminate H. Qed.

Lemma raises_bind {A B} (m : M A) (f : A -> M B) :
  raises_only Q m -> (forall a, raises_only Q (f a)) -> raises_only Q (bind m f).
Proof.
  intros Hm Hf tr e. unfold bind. specialize (Hm tr).
  destruct (m tr) as [[a|e'] tr']; simpl in *.
  - apply Hf.
  - intros H. injection H as <-. now apply Hm.
Qed.

Lemma raises_requests_call (w : world) (m : http_method)
      (url username password : string) :
  (forall msg, Q (RequestException msg)) ->
  raises_only Q (requests_call w m url username password).
Proof.
  intros HQ tr e. unfold requests_call.
  destruct (http_request w tr m url HEADERS username password); simpl;
    intros H; try discriminate H.
  injection H as <-. apply HQ.
Qed.

Lemma raises_for_each {A} (items : list A) (body : A -> M unit) :
  (forall x, raises_only Q (body x)) -> raises_only Q (for_each items body).
Proof.
  intros Hbody. induction items as [|x rest IH]; simpl.
  - apply raises_ret.
  - apply raises_bind; [apply Hbody|intros _; exact IH].
Qed.

End RaisesOnly.

(** ** What [generate_token] raises and sends *)

Lemma raises_response_json (r : http_response) :
  raises_only (fun e => from_provider_call e = true) (response_json r).
Proof. destruct r; simpl; [apply raises_ret|now apply raises_raise..]. Qed.

Lemma raises_py_keys (v : json) :
  raises_only (fun e => from_provider_call e = true) (py_keys v).
Proof. destruct v; simpl; try now apply raises_raise. apply raises_ret. Qed.

Lemma raises_py_getitem (v : json) (key : string) :
  raises_only (fun e => from_provider_call e = true) (py_getitem v key).
Proof.
  destruct v; simpl; try now apply raises_raise.
  destruct (dict_get key fields); [apply raises_ret|now apply raises_raise].
Qed.

Lemma raises_py_iter (v : json) :
  raises_only (fun e => from_provider_call e = true) (py_iter v).
Proof. destruct v; simpl; try (now apply raises_raise); apply raises_ret. Qed.

Lemma revoke_if_token_raises (w : world) (username password durl : string)
      (token : json) :
  raises_only (fun e => from_provider_call e = true)
              (revoke_if_token w username password durl token).
Proof.
  unfold revoke_if_token.
  apply raises_bind; [apply raises_py_keys|intros keys].
  destruct (key_in "access_token" keys); [|apply raises_ret].
  apply raises_bind; [apply raises_py_getitem|intros v].
  apply raises_bind; [|intros _; apply raises_ret].
  now apply raises_requests_call.
Qed.

Lemma handle_token_error_raises (w : world) (token_data : json)
      (username password turl durl : string) :
  raises_only (fun e => from_provider_call e = true)
              (handle_token_error w token_data username password turl durl).
Proof.
  unfold handle_token_error.
  apply raises_bind; [now apply raises_requests_call|intros r].
  apply raises_bind; [apply raises_response_json|intros data].
  apply raises_bind; [apply raises_py_iter|intros tokens].
  apply raises_bind.
  { apply raises_for_each. intros token. apply revoke_if_token_raises. }
  intros _.
  apply raises_bind; [now apply raises_requests_call|intros r2].
  apply raises_bind; [apply raises_response_json|intros data2].
  apply raises_bind; [apply raises_py_keys|intros keys].
  destruct (key_in "error" keys).
  - apply raises_bind; [apply raises_emit|intros _; apply raises_ret].
  - apply raises_py_getitem.
Qed.

Lemma generate_token_raises (w : world) (username password turl durl : string) :
  raises_only (fun e => from_provider_call e = true)
              (generate_token w username password turl durl).
Proof.
  unfold generate_token.
  apply raises_bind; [now apply raises_requests_call|intros r].
  apply raises_bind; [apply raises_response_json|intros data].
  apply raises_bind; [apply raises_py_keys|intros keys].
  destruct (key_in "error" keys).
  - apply raises_bind; [apply raises_py_getitem|intros code].
    destruct (py_eq_str code "max_token_limit").
    + apply raises_bind; [apply handle_token_error_raises|intros token].
      apply raises_bind; [apply raises_emit|intros _; apply raises_ret].
    + apply raises_bind; [apply raises_emit|intros _; apply raises_ret].
  - apply raises_bind; [apply raises_py_getitem|intros token].
    apply raises_bind; [apply raises_emit|intros _; apply raises_ret].
Qed.

Lemma revoke_if_token_emits (w : world) (username password turl durl : string)
      (token : json) :
  emits (provider_event username password turl durl)
        (revoke_if_token w username password durl token).
Proof.
  unfold revoke_if_token.
  apply emits_bind; [apply emits_py_keys|intros keys].
  destruct (key_in "access_token" keys); [|apply emits_ret].
  apply emits_bind; [apply emits_py_getitem|intros v].
  apply emits_bind; [|intros _; apply emits_ret].
  apply emits_requests_call. simpl. repeat split.
  right. right. split; [reflexivity|]. now exists (py_str w v).
Qed.

Lemma handle_token_error_emits (w : world) (token_data : json)
      (username password turl durl : string) :
  emits (provider_event username password turl durl)
        (handle_token_error w token_data username password turl durl).
Proof.
  assert (Hlog : forall lvl msg,
             provider_event username password turl durl (ELog lvl msg))
    by (intros; exact I).
  assert (Hpost : provider_event username password turl durl
                    (EHttp POST turl HEADERS username password))
    by (simpl; repeat split; left; now split).
  assert (Hget : provider_event username password turl durl
                   (EHttp GET (turl +:+ "s") HEADERS username password))
    by (simpl; repeat split; right; left; now split).
  unfold handle_token_error.
  apply emits_bind; [now apply emits_requests_call|intros r].
  apply emits_bind; [apply emits_response_json|intros data].
  apply emits_bind; [apply emits_py_iter|intros tokens].
  apply emits_bind.
  { apply emits_for_each. intros token. apply revoke_if_token_emits. }
  intros _.
  apply emits_bind; [now apply emits_requests_call|intros r2].
  apply emits_bind; [apply emits_response_json|intros data2].
  apply emits_bind; [apply emits_py_keys|intros keys].
  destruct (key_in "error" keys).
  - apply emits_bind; [apply emits_emit, Hlog|intros _; apply emits_ret].
  - apply emits_py_getitem.
Qed.

Lemma generate_token_emits (w : world) (username password turl durl : string) :
  emits (provider_event username password turl durl)
        (generate_token w username password turl durl).
Proof.
  assert (Hlog : forall lvl msg,
             provider_event username password turl durl (ELog lvl msg))
    by (intros; exact I).
  assert (Hpost : provider_event username password turl durl
                    (EHttp POST turl HEADERS username password))
    by (simpl; repeat split; left; now split).
  unfold generate_token.
  apply emits_bind; [now apply emits_requests_call|intros r].
  apply emits_bind; [apply emits_response_json|intros data].
  apply emits_bind; [apply emits_py_keys|intros keys].
  destruct (key_in "error" keys).
  - apply emits_bind; [apply emits_py_getitem|intros code].
    destruct (py_eq_str code "max_token_limit").
    + apply emits_bind; [apply handle_token_error_emits|intros token].
      apply emits_bind; [apply emits_emit, Hlog|intros _; apply emits_ret].
    + apply emits_bind; [apply emits_emit, Hlog|intros _; apply emits_ret].
  - apply emits_bind; [apply emits_py_getitem|intros token].
    apply emits_bind; [apply emits_emit, Hlog|intros _; apply emits_ret].
Qed.

(** X1: whatever the world answers, the events [generate_token] adds are log
    lines and HTTP requests only, and every request carries the [Accept]
    header and the given username and password and is a POST to the token
    URL, a GET to the token URL followed by [s], or a POST to the revoke URL
    followed by [=] and a token. *)
Theorem generate_token_sends_only_authenticated_provider_requests (w : world)
        (username password turl durl : string) (tr : list event) :
  exists added : list event,
    snd (generate_token w username password turl durl tr) = tr ++ added /\
    Forall (provider_event username password turl durl) added.
Proof. apply generate_token_emits. Qed.

(** X2: [generate_token] never ends with a [ClientError], with another
    botocore error or with a [SystemExit]: whatever it raises comes from a
    [requests] call or from the handling of a response. *)
Theorem generate_token_raises_no_botocore_error (w : world)
        (username password turl durl : string) (tr : list event) (e : exn) :
  fst (generate_token w username password turl durl tr) = Raise e ->
  (forall msg, e <> ClientError msg) /\
  (forall msg, e <> BotoCoreError msg) /\
  (forall code, e <> SystemExit code).
Proof.
  intros Hraise.
  pose proof (generate_token_raises w username password turl durl tr e Hraise)
    as Hkind.
  repeat split; intros x ->; discriminate Hkind.
Qed.

Lemma generate_token_raises_no_botocore_error_witness :
  KeyError "access_token" <> ClientError "access_token".
Proof.
  exact (proj1 (generate_token_raises_no_botocore_error
                  empty_object_world "user" "secret" token_url delete_token_url
                  [] (KeyError "access_token") eq_refl) "access_token").
Defined.

(** ** Responses of an unexpected shape *)

(** X3: when the first token-creation request gets no response, a body that
    is not JSON, or JSON that is not an object, [generate_token] raises
    ([RequestException], [JSONDecodeError], [AttributeError]) right after
    that request; it does not return [False] and logs nothing. *)
Theorem first_response_not_an_object_raises (w : world)
        (username password turl durl : string) (tr : list event) :
  (forall fields,
     http_request w tr POST turl HEADERS username password <>
     HttpJson (JObj fields)) ->
  generate_token w username password turl durl tr =
  (Raise match http_request w tr POST turl HEADERS username password with
         | HttpFail msg => RequestException msg
         | HttpNotJson => JSONDecodeError
         | HttpJson _ => AttributeError "keys"
         end,
   tr ++ [creation_event username password turl]).
Proof.
  intros Hshape.
  unfold generate_token, bind, requests_post, requests_call, creation_event.
  destruct (http_request w tr POST turl HEADERS username password)
    as [body| |msg]; try reflexivity.
  destruct body; try reflexivity. now destruct (Hshape fields).
Qed.

Lemma first_response_not_an_object_raises_witness :
  generate_token no_json_world "user" "secret" token_url delete_token_url [] =
  (Raise JSONDecodeError, [creation_event "user" "secret" token_url]).
Proof.
  apply (first_response_not_an_object_raises
           no_json_world "user" "secret" token_url delete_token_url []).
  intros fields. discriminate.
Defined.

(** [generate_token] once the token limit is hit: the rest is
    [handle_token_error] and the final log line. *)
Lemma generate_token_enters_remediation (w : world)
      (username password turl durl : string) (tr : list event)
      (first : list (string * json)) :
  http_request w tr POST turl HEADERS username password = HttpJson (JObj first) ->
  dict_get "error" first = Some (JStr "max_token_limit") ->
  generate_token w username password turl durl tr =
  match handle_token_error w (JObj first) username password turl durl
                           (tr ++ [creation_event username password turl]) with
  | (Ok token, tr') => (Ok token, tr' ++ [success_log])
  | (Raise e, tr') => (Raise e, tr')
  end.
Proof.
  intros Hfirst Hmax.
  unfold generate_token, requests_post.
  unfold bind at 1. rewrite (requests_call_json _ _ _ _ _ _ _ Hfirst).
  unfold bind at 1. simpl response_json. unfold ret at 1.
  unfold bind at 1. simpl py_keys. unfold ret at 1.
  rewrite key_in_dict_keys, Hmax.
  unfold bind at 1. simpl py_getitem. rewrite Hmax. unfold ret at 1.
  unfold py_eq_str. rewrite String.eqb_refl.
  unfold bind at 1. fold (creation_event username password turl).
  destruct (handle_token_error w (JObj first) username password turl durl
              (tr ++ [creation_event username password turl])) as [[token|e] tr'];
    reflexivity.
Qed.

(** X4: when the token limit is hit and the list request gets no response, a
    body that is not JSON, [null], a boolean, a number, a non-empty object
    or a non-empty string, [generate_token] raises right after the list
    request: nothing is revoked and no second creation request is sent. *)
Theorem unusable_listing_aborts_remediation (w : world)
        (username password turl durl : string) (tr : list event)
        (first : list (string * json)) :
  http_request w tr POST turl HEADERS username password = HttpJson (JObj first) ->
  dict_get "error" first = Some (JStr "max_token_limit") ->
  match http_request w (tr ++ [creation_event username password turl])
                     GET (turl +:+ "s") HEADERS username password with
  | HttpJson (JArr _) | HttpJson (JObj []) | HttpJson (JStr "") => False
  | _ => True
  end ->
  generate_token w username password turl durl tr =
  (Raise match http_request w (tr ++ [creation_event username password turl])
                            GET (turl +:+ "s") HEADERS username password with
         | HttpFail msg => RequestException msg
         | HttpNotJson => JSONDecodeError
         | HttpJson (JObj _) | HttpJson (JStr _) => AttributeError "keys"
         | HttpJson _ => TypeError
         end,
   tr ++ [creation_event username password turl;
          list_event username password turl]).
Proof.
  intros Hfirst Hmax Hshape.
  rewrite (generate_token_enters_remediation _ _ _ _ _ _ _ Hfirst Hmax).
  unfold handle_token_error, bind, requests_get, requests_call, list_event.
  destruct (http_request w (tr ++ [creation_event username password turl])
              GET (turl +:+ "s") HEADERS username password) as [body| |msg];
    rewrite <- ?app_assoc; try reflexivity.
  destruct body as [| | |s|items|fields]; try reflexivity.
  - destruct s; [destruct Hshape|reflexivity].
  - destruct Hshape.
  - destruct fields as [|[k v] fields]; [destruct Hshape|reflexivity].
Qed.

Lemma unusable_listing_aborts_remediation_witness :
  generate_token listing_refused_world "user" "secret"
                 token_url delete_token_url [] =
  (Raise (AttributeError "keys"),
   [creation_event "user" "secret" token_url;
    list_event "user" "secret" token_url]).
Proof.
  exact (unusable_listing_aborts_remediation
           listing_refused_world "user" "secret" token_url delete_token_url []
           [("error", JStr "max_token_limit")] eq_refl eq_refl I).
Defined.

Lemma for_each_app {A} (l1 l2 : list A) (body : A -> M unit) (tr : list event) :
  for_each (l1 ++ l2) body tr =
  match for_each l1 body tr with
  | (Ok _, tr') => for_each l2 body tr'
  | (Raise e, tr') => (Raise e, tr')
  end.
Proof.
  revert tr. induction l1 as [|x rest IH]; intros tr; simpl.
  - reflexivity.
  - unfold bind. destruct (body x tr) as [[[]|e] tr']; [apply IH|reflexivity].
Qed.

(** An exception in the revoke loop ends [generate_token]. *)
Lemma generate_token_loop_raises (w : world)
      (username password turl durl : string) (tr tr' : list event)
      (first : list (string * json)) (items : list json) (e : exn) :
  http_request w tr POST turl HEADERS username password = HttpJson (JObj first) ->
  dict_get "error" first = Some (JStr "max_token_limit") ->
  http_request w (tr ++ [creation_event username password turl])
               GET (turl +:+ "s") HEADERS username password =
  HttpJson (JArr items) ->
  for_each items (revoke_if_token w username password durl)
           (listed_trace username password turl tr) = (Raise e, tr') ->
  generate_token w username password turl durl tr = (Raise e, tr').
Proof.
  intros Hfirst Hmax Hlist Hloop.
  rewrite (generate_token_enters_remediation _ _ _ _ _ _ _ Hfirst Hmax).
  unfold handle_token_error, requests_get.
  unfold bind at 1. rewrite (requests_call_json _ _ _ _ _ _ _ Hlist).
  unfold bind at 1. simpl response_json. unfold ret at 1.
  unfold bind at 1. simpl py_iter. unfold ret at 1.
  unfold bind at 1.
  unfold listed_trace, list_event in Hloop.
  replace ((tr ++ [creation_event username password turl]) ++
           [EHttp GET (turl +:+ "s") HEADERS username password])
    with (tr ++ [creation_event username password turl;
                 EHttp GET (turl +:+ "s") HEADERS username password])
    by now rewrite <- app_assoc.
  now rewrite Hloop.
Qed.

(** X5: when a listed entry is not a JSON object, the tokens of the entries
    before it are revoked, then [generate_token] raises [AttributeError]:
    the tokens listed after it are not revoked and no second creation
    request is sent. *)
Theorem non_object_entry_stops_revocation (w : world)
        (username password turl durl : string) (tr : list event)
        (first : list (string * json)) (good : list (list (string * json)))
        (bad : json) (rest : list json) :
  http_request w tr POST turl HEADERS username password = HttpJson (JObj first) ->
  dict_get "error" first = Some (JStr "max_token_limit") ->
  http_request w (tr ++ [creation_event username password turl])
               GET (turl +:+ "s") HEADERS username password =
  HttpJson (JArr (map JObj good ++ bad :: rest)) ->
  (forall fields, bad <> JObj fields) ->
  revokes_return w username password durl
                 (listed_trace username password turl tr) (access_tokens good) ->
  generate_token w username password turl durl tr =
  (Raise (AttributeError "keys"),
   tr ++ [creation_event username password turl;
          list_event username password turl] ++
   map (revoke_event w username password durl) (access_tokens good)).
Proof.
  intros Hfirst Hmax Hlist Hbad Hrevoke.
  apply (generate_token_loop_raises _ _ _ _ _ _ _ _ _ _ Hfirst Hmax Hlist).
  rewrite for_each_app, (revoke_loop_trace _ _ _ _ _ _ Hrevoke).
  unfold listed_trace. rewrite <- app_assoc.
  simpl for_each. unfold bind, revoke_if_token, bind.
  destruct bad; try reflexivity. now destruct (Hbad fields).
Qed.

Lemma non_object_entry_stops_revocation_witness :
  generate_token odd_listing_world "user" "secret"
                 token_url delete_token_url [] =
  (Raise (AttributeError "keys"),
   [creation_event "user" "secret" token_url;
    list_event "user" "secret" token_url;
    EHttp POST "https://urs.earthdata.nasa.gov/api/users/revoke_token?token=t1"
          HEADERS "user" "secret"]).
Proof.
  apply (non_object_entry_stops_revocation
           odd_listing_world "user" "secret" token_url delete_token_url []
           [("error", JStr "max_token_limit")]
           [[("access_token", JStr "t1")]] (JStr "t2")
           [JObj [("access_token", JStr "t3")]]
           eq_refl eq_refl eq_refl
           (fun fields Heq => ltac:(discriminate Heq))
           (fun pre =>
              match pre with
              | [] => fun v post Heq msg Hfail =>
                  ltac:(injection Heq as <- <-; vm_compute in Hfail;
                        discriminate Hfail)
              | _ :: pre' => fun v post Heq msg Hfail =>
                  ltac:(destruct pre'; discriminate Heq)
              end)).
Defined.

(** X6: when a revoke request fails in transit, [generate_token] raises the
    [RequestException] at once: the remaining tokens are not revoked and no
    second creation request is sent. *)
Theorem failed_revoke_stops_remediation (w : world)
        (username password turl durl : string) (tr : list event)
        (first : list (string * json)) (good : list (list (string * json)))
        (fields : list (string * json)) (rest : list json)
        (token : json) (msg : string) :
  http_request w tr POST turl HEADERS username password = HttpJson (JObj first) ->
  dict_get "error" first = Some (JStr "max_token_limit") ->
  http_request w (tr ++ [creation_event username password turl])
               GET (turl +:+ "s") HEADERS username password =
  HttpJson (JArr (map JObj good ++ JObj fields :: rest)) ->
  dict_get "access_token" fields = Some token ->
  revokes_return w username password durl
                 (listed_trace username password turl tr) (access_tokens good) ->
  http_request w (revoked_trace w username password turl durl tr good)
               POST (durl +:+ "=" +:+ py_str w token) HEADERS username password =
  HttpFail msg ->
  generate_token w username password turl durl tr =
  (Raise (RequestException msg),
   tr ++ [creation_event username password turl;
          list_event username password turl] ++
   map (revoke_event w username password durl) (access_tokens good) ++
   [revoke_event w username password durl token]).
Proof.
  intros Hfirst Hmax Hlist Htoken Hrevoke Hfail.
  apply (generate_token_loop_raises _ _ _ _ _ _ _ _ _ _ Hfirst Hmax Hlist).
  rewrite for_each_app, (revoke_loop_trace _ _ _ _ _ _ Hrevoke).
  unfold revoked_trace in Hfail.
  simpl for_each. unfold bind at 1. unfold revoke_if_token, bind at 1.
  simpl py_keys. unfold ret at 1. rewrite key_in_dict_keys, Htoken.
  unfold bind at 1. simpl py_getitem. rewrite Htoken. unfold ret at 1.
  unfold bind at 1. unfold requests_post, requests_call. rewrite Hfail.
  unfold listed_trace, revoke_event. now rewrite <- !app_assoc.
Qed.

Lemma failed_revoke_stops_remediation_witness :
  generate_token revoke_fails_world "user" "secret"
                 token_url delete_token_url [] =
  (Raise (RequestException "no response"),
   [creation_event "user" "secret" token_url;
    list_event "user" "secret" token_url;
    EHttp POST "https://urs.earthdata.nasa.gov/api/users/revoke_token?token=t1"
          HEADERS "user" "secret"]).
Proof.
  apply (failed_revoke_stops_remediation
           revoke_fails_world "user" "secret" token_url delete_token_url []
           [("error", JStr "max_token_limit")] []
           [("access_token", JStr "t1")] [JObj [("access_token", JStr "t2")]]
           (JStr "t1") "no response"
           eq_refl eq_refl eq_refl eq_refl
           (fun pre v post Heq =>
              match app_cons_not_nil pre post v Heq with end)
           eq_refl).
Defined.

(** X7: an empty JSON object or an empty string as the answer to the list
    request is taken for an empty listing: nothing is revoked and the second
    creation request is sent, whose response decides the result. *)
Theorem empty_object_listing_is_an_empty_listing (w : world)
        (username password turl durl : string) (tr : list event)
        (first : list (string * json)) (listing : json)
        (retry : list (string * json)) :
  http_request w tr POST turl HEADERS username password = HttpJson (JObj first) ->
  dict_get "error" first = Some (JStr "max_token_limit") ->
  http_request w (tr ++ [creation_event username password turl])
               GET (turl +:+ "s") HEADERS username password = HttpJson listing ->
  listing = JObj [] \/ listing = JStr "" ->
  http_request w (listed_trace username password turl tr)
               POST turl HEADERS username password = HttpJson (JObj retry) ->
  generate_token w username password turl durl tr =
  match dict_get "error" retry, dict_get "access_token" retry with
  | Some _, _ =>
      (Ok (JBool false),
       listed_trace username password turl tr ++
       [creation_event username password turl; error_log; success_log])
  | None, Some token =>
      (Ok token,
       listed_trace username password turl tr ++
       [creation_event username password turl; success_log])
  | None, None =>
      (Raise (KeyError "access_token"),
       listed_trace username password turl tr ++
       [creation_event username password turl])
  end.
Proof.
  intros Hfirst Hmax Hlist Hempty Hretry.
  rewrite (generate_token_enters_remediation _ _ _ _ _ _ _ Hfirst Hmax).
  unfold listed_trace, list_event in *.
  replace (tr ++ [creation_event username password turl;
                  EHttp GET (turl +:+ "s") HEADERS username password])
    with ((tr ++ [creation_event username password turl]) ++
          [EHttp GET (turl +:+ "s") HEADERS username password]) in *
    by now rewrite <- app_assoc.
  unfold handle_token_error, requests_get, requests_post.
  unfold bind at 1. rewrite (requests_call_json _ _ _ _ _ _ _ Hlist).
  unfold bind at 1. simpl response_json. unfold ret at 1.
  assert (Hiter : forall tr0, py_iter listing tr0 = (Ok [], tr0))
    by (destruct Hempty as [-> | ->]; reflexivity).
  unfold bind at 1. rewrite Hiter.
  unfold bind at 1. simpl for_each. unfold ret at 1.
  unfold bind at 1. rewrite (requests_call_json _ _ _ _ _ _ _ Hretry).
  unfold bind. simpl. rewrite key_in_dict_keys.
  destruct (dict_get "error" retry) as [code|]; simpl.
  - unfold creation_event, error_log, success_log. now rewrite <- !app_assoc.
  - destruct (dict_get "access_token" retry); simpl; [|reflexivity].
    unfold creation_event, success_log. now rewrite <- !app_assoc.
Qed.

Lemma empty_object_listing_is_an_empty_listing_witness :
  generate_token empty_listing_world "user" "secret"
                 token_url delete_token_url [] =
  (Ok (JStr "xyz789"),
   [creation_event "user" "secret" token_url;
    list_event "user" "secret" token_url;
    creation_event "user" "secret" token_url; success_log]).
Proof.
  exact (empty_object_listing_is_an_empty_listing
           empty_listing_world "user" "secret" token_url delete_token_url []
           [("error", JStr "max_token_limit")] (JObj [])
           [("access_token", JStr "xyz789")]
           eq_refl eq_refl eq_refl (or_introl eq_refl) eq_refl).
Defined.

(** ** Request counts *)

Lemma adds_try_except {A} (p : event -> bool) (n k : nat)
      (body : M A) (handler : string -> M A) :
  adds_at_most p n body -> (forall msg, adds_at_most p k (handler msg)) ->
  adds_at_most p (n + k) (try_except_ClientError body handler).
Proof.
  intros Hbody Hhandler tr. unfold try_except_ClientError.
  specialize (Hbody tr).
  destruct (body tr) as [[a|e] tr']; simpl in *; [lia|].
  destruct e; simpl; try lia.
  specialize (Hhandler msg tr'). lia.
Qed.

Lemma adds_aws_call {A} (p : event -> bool) (ev : event)
      (answer : list event -> exn + A) :
  adds_at_most p (if p ev then 1 else 0) (aws_call ev answer).
Proof.
  intros tr. unfold aws_call.
  assert (Hone : count_events p (tr ++ [ev]) =
                 count_events p tr + (if p ev then 1 else 0)).
  { rewrite count_events_app. unfold count_events at 2. simpl.
    now destruct (p ev). }
  destruct (answer tr); simpl; lia.
Qed.

Lemma revoke_if_token_lists (w : world) (username password durl : string)
      (token : json) :
  adds_at_most is_list_request 0 (revoke_if_token w username password durl token).
Proof.
  unfold revoke_if_token.
  apply (adds_bind _ 0 0); [apply adds_py_keys|intros keys].
  destruct (key_in "access_token" keys); [|apply adds_ret].
  apply (adds_bind _ 0 0); [apply adds_py_getitem|intros v].
  apply (adds_bind _ 0 0); [|intros _; apply adds_ret].
  exact (adds_requests_call is_list_request w POST _ username password).
Qed.

Lemma handle_token_error_lists (w : world) (token_data : json)
      (username password turl durl : string) :
  adds_at_most is_list_request 1
               (handle_token_error w token_data username password turl durl).
Proof.
  unfold handle_token_error.
  apply (adds_bind _ 1 0);
    [exact (adds_requests_call is_list_request w GET _ username password)
    |intros r].
  apply (adds_bind _ 0 0); [apply adds_response_json|intros data].
  apply (adds_bind _ 0 0); [apply adds_py_iter|intros tokens].
  apply (adds_bind _ 0 0).
  { apply adds_for_each. intros token. apply revoke_if_token_lists. }
  intros _.
  apply (adds_bind _ 0 0);
    [exact (adds_requests_call is_list_request w POST _ username password)
    |intros r2].
  apply (adds_bind _ 0 0); [apply adds_response_json|intros data2].
  apply (adds_bind _ 0 0); [apply adds_py_keys|intros keys].
  destruct (key_in "error" keys).
  - apply (adds_bind _ 0 0); [now apply adds_emit|intros _; apply adds_ret].
  - apply adds_py_getitem.
Qed.

Lemma generate_token_lists (w : world) (username password turl durl : string) :
  adds_at_most is_list_request 1
               (generate_token w username password turl durl).
Proof.
  unfold generate_token.
  apply (adds_bind _ 0 1);
    [exact (adds_requests_call is_list_request w POST _ username password)
    |intros r].
  apply (adds_bind _ 0 1); [apply adds_response_json|intros data].
  apply (adds_bind _ 0 1); [apply adds_py_keys|intros keys].
  destruct (key_in "error" keys).
  - apply (adds_bind _ 0 1); [apply adds_py_getitem|intros code].
    destruct (py_eq_str code "max_token_limit").
    + apply (adds_bind _ 1 0); [apply handle_token_error_lists|intros token].
      apply (adds_bind _ 0 0); [now apply adds_emit|intros _; apply adds_ret].
    + apply (adds_weaken _ 0); [lia|].
      apply (adds_bind _ 0 0); [now apply adds_emit|intros _; apply adds_ret].
  - apply (adds_weaken _ 0); [lia|].
    apply (adds_bind _ 0 0); [apply adds_py_getitem|intros token].
    apply (adds_bind _ 0 0); [now apply adds_emit|intros _; apply adds_ret].
Qed.

(** X8: whatever the world answers, one call of [generate_token] sends at
    most one GET request, the listing of the tokens; the listing is never
    asked for a second time. *)
Theorem at_most_one_list_request (w : world)
        (username password turl durl : string) (tr : list event) :
  count_events is_list_request
    (snd (generate_token w username password turl durl tr))
  <= count_events is_list_request tr + 1.
Proof. apply generate_token_lists. Qed.

(** ** [store_token] and [get_edl_creds] when a call fails *)

(** X9: when the key is resolved and SSM refuses the write, [store_token]
    re-raises what [put_parameter] raised after that single attempt (there
    is no second write); the two error lines are logged for a [ClientError]
    and nothing is logged for any other exception. *)
Theorem refused_write_is_reraised (w : world) (token prefix : json)
        (tr : list event) (key : string) (e : exn) :
  kms_describe_key w tr (key_alias w prefix) = inr key ->
  ssm_put_parameter w (tr ++ [EDescribeKey (key_alias w prefix)])
                    (token_parameter token key) = inl e ->
  store_token w token prefix tr =
  (Raise e,
   tr ++ [EDescribeKey (key_alias w prefix);
          EPutParameter (token_parameter token key)] ++
   match e with
   | ClientError msg =>
       [ELog ERROR "Could not store EDL bearer token in SSM Parameter Store.";
        ELog ERROR msg]
   | _ => []
   end).
Proof.
  intros Hkey Hput. rewrite store_token_cases. cbv zeta.
  rewrite Hkey, Hput. now destruct e.
Qed.

Lemma refused_write_is_reraised_witness :
  store_token write_refused_world (JStr "abc123") (JStr "uds") [] =
  (Raise (ClientError "AccessDeniedException"),
   [EDescribeKey "alias/uds-ssm-parameter-store";
    EPutParameter (token_parameter (JStr "abc123") "key-1");
    ELog ERROR "Could not store EDL bearer token in SSM Parameter Store.";
    ELog ERROR "AccessDeniedException"]).
Proof.
  exact (refused_write_is_reraised
           write_refused_world (JStr "abc123") (JStr "uds") [] "key-1"
           (ClientError "AccessDeniedException") eq_refl eq_refl).
Defined.

(** X10: when the read of [edl_username] raises, [get_edl_creds] re-raises
    the same exception and [edl_password] is never asked for; the two error
    lines are logged for a [ClientError] and nothing is logged for any other
    exception. *)
Theorem failed_username_read_skips_password (w : world) (tr : list event)
        (e : exn) :
  ssm_get_parameter w tr "edl_username" true = inl e ->
  get_edl_creds w tr =
  (Raise e,
   tr ++ [EGetParameter "edl_username" true] ++
   match e with
   | ClientError msg =>
       [ELog ERROR "Could not retrieve EDL credentials from SSM Parameter Store.";
        ELog ERROR msg]
   | _ => []
   end).
Proof.
  intros Hread. rewrite get_edl_creds_cases. cbv zeta.
  rewrite Hread. now destruct e.
Qed.

Lemma failed_username_read_skips_password_witness :
  get_edl_creds unreachable_ssm_world [] =
  (Raise (BotoCoreError "EndpointConnectionError"),
   [EGetParameter "edl_username" true]).
Proof.
  exact (failed_username_read_skips_password
           unreachable_ssm_world [] (BotoCoreError "EndpointConnectionError")
           eq_refl).
Defined.

(** X11: when both reads succeed, [get_edl_creds] returns the two values as
    SSM gave them, username first; both were asked for with decryption, the
    username before the password. *)
Theorem get_edl_creds_returns_the_stored_pair (w : world) (tr : list event)
        (username password : string) :
  ssm_get_parameter w tr "edl_username" true = inr username ->
  ssm_get_parameter w (tr ++ [EGetParameter "edl_username" true])
                    "edl_password" true = inr password ->
  get_edl_creds w tr =
  (Ok (username, password),
   tr ++ [EGetParameter "edl_username" true;
          EGetParameter "edl_password" true;
          ELog INFO "Retrieved EDL username and password."]).
Proof.
  intros Huser Hpass. rewrite get_edl_creds_cases. cbv zeta.
  now rewrite Huser, Hpass.
Qed.

Lemma get_edl_creds_returns_the_stored_pair_witness :
  get_edl_creds first_try_world [] =
  (Ok ("user", "secret"),
   [EGetParameter "edl_username" true; EGetParameter "edl_password" true;
    ELog INFO "Retrieved EDL username and password."]).
Proof.
  exact (get_edl_creds_returns_the_stored_pair
           first_try_world [] "user" "secret" eq_refl eq_refl).
Defined.

(** ** How [lambda_handler] ends *)

(** X12: once the credentials are read, [generate_token] has returned a
    value and [store_token] has stored it, [lambda_handler] returns normally
    when the value is truthy; when it is falsy ([False], an empty string,
    [null], zero, an empty array or object) it logs [Program exiting.] and
    exits with status 1, after the write. *)
Theorem stored_token_decides_the_exit {C : Type} (w : world)
        (tr tr1 tr2 tr3 : list event) (username password : string)
        (token prefix : json) (fields : list (string * json)) (context : C) :
  get_edl_creds w (tr ++ [ELog INFO "Attempting to create token."]) =
  (Ok (username, password), tr1) ->
  generate_token w username password token_url delete_token_url tr1 =
  (Ok token, tr2) ->
  dict_get "prefix" fields = Some prefix ->
  store_token w token prefix tr2 = (Ok tt, tr3) ->
  lambda_handler w (JObj fields) context tr =
  if py_truthy token then (Ok tt, tr3)
  else (Raise (SystemExit 1), tr3 ++ [ELog INFO "Program exiting."]).
Proof.
  intros Hcreds Htoken Hprefix Hstore.
  rewrite (lambda_handler_after_token _ _ _ _ _ _ _ _ _ _
             Hcreds Htoken Hprefix).
  now rewrite Hstore.
Qed.

Lemma stored_token_decides_the_exit_witness :
  lambda_handler first_try_world (JObj [("prefix", JStr "uds")]) tt [] =
  (Ok tt,
   [ELog INFO "Attempting to create token.";
    EGetParameter "edl_username" true; EGetParameter "edl_password" true;
    ELog INFO "Retrieved EDL username and password.";
    creation_event "user" "secret" token_url;
    ELog INFO "Successfully generated EDL bearer token.";
    EDescribeKey "alias/uds-ssm-parameter-store";
    EPutParameter (token_parameter (JStr "abc123") "key-1");
    stored_log]).
Proof.
  exact (stored_token_decides_the_exit
           first_try_world []
           (snd (get_edl_creds first_try_world
                   [ELog INFO "Attempting to create token."]))
           (snd (generate_token first_try_world "user" "secret"
                   token_url delete_token_url
                   (snd (get_edl_creds first_try_world
                           [ELog INFO "Attempting to create token."]))))
           _ "user" "secret" (JStr "abc123") (JStr "uds")
           [("prefix", JStr "uds")] tt eq_refl eq_refl eq_refl eq_refl).
Defined.

(** X13: the event is looked at only after the token has been generated:
    when it is not an object ([TypeError]) or has no [prefix] key
    ([KeyError]), [lambda_handler] ends with that exception, not with exit
    status 1; the token was created but nothing is resolved or written, and
    [Program exiting.] is not logged. *)
Theorem missing_prefix_is_found_after_the_token {C : Type} (w : world)
        (tr tr1 tr2 : list event) (username password : string)
        (token event : json) (context : C) :
  get_edl_creds w (tr ++ [ELog INFO "Attempting to create token."]) =
  (Ok (username, password), tr1) ->
  generate_token w username password token_url delete_token_url tr1 =
  (Ok token, tr2) ->
  match event with
  | JObj fields => dict_get "prefix" fields = None
  | _ => True
  end ->
  lambda_handler w event context tr =
  (Raise match event with
         | JObj _ => KeyError "prefix"
         | _ => TypeError
         end, tr2).
Proof.
  intros Hcreds Htoken Hprefix.
  unfold lambda_handler, bind at 1, logger_info at 1, emit.
  unfold try_except_ClientError. unfold bind at 1.
  rewrite Hcreds. simpl fst. simpl snd.
  unfold bind at 1. rewrite Htoken.
  unfold bind at 1.
  destruct event as [| | | | |fields]; try reflexivity.
  simpl py_getitem. now rewrite Hprefix.
Qed.

Lemma missing_prefix_is_found_after_the_token_witness :
  lambda_handler first_try_world (JObj [("Prefix", JStr "uds")]) tt [] =
  (Raise (KeyError "prefix"),
   [ELog INFO "Attempting to create token.";
    EGetParameter "edl_username" true; EGetParameter "edl_password" true;
    ELog INFO "Retrieved EDL username and password.";
    creation_event "user" "secret" token_url;
    ELog INFO "Successfully generated EDL bearer token."]).
Proof.
  exact (missing_prefix_is_found_after_the_token
           first_try_world []
           (snd (get_edl_creds first_try_world
                   [ELog INFO "Attempting to create token."]))
           _ "user" "secret" (JStr "abc123") (JObj [("Prefix", JStr "uds")]) tt
           eq_refl eq_refl eq_refl).
Defined.

(** X14: when [store_token] raises, [lambda_handler] turns a [ClientError]
    into the log line [Program exiting.] and exit status 1, and lets every
    other exception through unchanged. *)
Theorem store_error_ends_the_run {C : Type} (w : world)
        (tr tr1 tr2 tr3 : list event) (username password : string)
        (token prefix : json) (fields : list (string * json)) (e : exn)
        (context : C) :
  get_edl_creds w (tr ++ [ELog INFO "Attempting to create token."]) =
  (Ok (username, password), tr1) ->
  generate_token w username password token_url delete_token_url tr1 =
  (Ok token, tr2) ->
  dict_get "prefix" fields = Some prefix ->
  store_token w token prefix tr2 = (Raise e, tr3) ->
  lambda_handler w (JObj fields) context tr =
  match e with
  | ClientError _ =>
      (Raise (SystemExit 1), tr3 ++ [ELog INFO "Program exiting."])
  | _ => (Raise e, tr3)
  end.
Proof.
  intros Hcreds Htoken Hprefix Hstore.
  rewrite (lambda_handler_after_token _ _ _ _ _ _ _ _ _ _
             Hcreds Htoken Hprefix).
  rewrite Hstore. now destruct e.
Qed.

Lemma store_error_ends_the_run_witness :
  lambda_handler write_refused_world (JObj [("prefix", JStr "uds")]) tt [] =
  (Raise (SystemExit 1),
   [ELog INFO "Attempting to create token.";
    EGetParameter "edl_username" true; EGetParameter "edl_password" true;
    ELog INFO "Retrieved EDL username and password.";
    creation_event "user" "secret" token_url;
    ELog INFO "Successfully generated EDL bearer token.";
    EDescribeKey "alias/uds-ssm-parameter-store";
    EPutParameter (token_parameter (JStr "abc123") "key-1");
    ELog ERROR "Could not store EDL bearer token in SSM Parameter Store.";
    ELog ERROR "AccessDeniedException";
    ELog INFO "Program exiting."]).
Proof.
  exact (store_error_ends_the_run
           write_refused_world []
           (snd (get_edl_creds write_refused_world
                   [ELog INFO "Attempting to create token."]))
           (snd (generate_token write_refused_world "user" "secret"
                   token_url delete_token_url
                   (snd (get_edl_creds write_refused_world
                           [ELog INFO "Attempting to create token."]))))
           _ "user" "secret" (JStr "abc123") (JStr "uds")
           [("prefix", JStr "uds")] (ClientError "AccessDeniedException") tt
           eq_refl eq_refl eq_refl eq_refl).
Defined.

(** X15: an exception raised by [generate_token] is never caught by
    [lambda_handler]: the run ends with that very exception and the trace
    [generate_token] left, so there is no [Program exiting.] line, no exit
    status 1, no key resolution and no write. *)
Theorem generate_token_exception_escapes {C : Type} (w : world)
        (tr tr1 tr2 : list event) (username password : string) (e : exn)
        (event : json) (context : C) :
  get_edl_creds w (tr ++ [ELog INFO "Attempting to create token."]) =
  (Ok (username, password), tr1) ->
  generate_token w username password token_url delete_token_url tr1 =
  (Raise e, tr2) ->
  lambda_handler w event context tr = (Raise e, tr2).
Proof.
  intros Hcreds Htoken.
  pose proof (generate_token_raises w username password token_url
                delete_token_url tr1 e) as Hkind.
  rewrite Htoken in Hkind. specialize (Hkind eq_refl).
  unfold lambda_handler, bind at 1, logger_info at 1, emit.
  unfold try_except_ClientError. unfold bind at 1.
  rewrite Hcreds. simpl fst. simpl snd.
  unfold bind at 1. rewrite Htoken.
  destruct e; try reflexivity; discriminate Hkind.
Qed.

Lemma generate_token_exception_escapes_witness :
  lambda_handler offline_world (JObj [("prefix", JStr "uds")]) tt [] =
  (Raise (RequestException "no response"),
   [ELog INFO "Attempting to create token.";
    EGetParameter "edl_username" true; EGetParameter "edl_password" true;
    ELog INFO "Retrieved EDL username and password.";
    creation_event "user" "secret" token_url]).
Proof.
  exact (generate_token_exception_escapes
           offline_world []
           (snd (get_edl_creds offline_world
                   [ELog INFO "Attempting to create token."]))
           _ "user" "secret" (RequestException "no response")
           (JObj [("prefix", JStr "uds")]) tt eq_refl eq_refl).
Defined.

(** ** What a run may send *)

Lemma get_edl_creds_emits (w : world) : emits run_event (get_edl_creds w).
Proof.
  unfold get_edl_creds.
  apply emits_try_except.
  - apply emits_bind; [apply emits_aws_call; simpl; auto|intros username].
    apply emits_bind; [apply emits_aws_call; simpl; auto|intros password].
    apply emits_bind; [now apply emits_emit|intros _; apply emits_ret].
  - intros msg.
    apply emits_bind; [now apply emits_emit|intros _].
    apply emits_bind; [now apply emits_emit|intros _; apply emits_raise].
Qed.

Lemma store_token_emits (w : world) (token prefix : json) :
  emits run_event (store_token w token prefix).
Proof.
  unfold store_token.
  apply emits_try_except.
  - apply emits_bind; [now apply emits_aws_call|intros key].
    apply emits_bind; [|intros _; now apply emits_emit].
    apply emits_aws_call. simpl. repeat split.
  - intros msg.
    apply emits_bind; [now apply emits_emit|intros _].
    apply emits_bind; [now apply emits_emit|intros _; apply emits_raise].
Qed.

Lemma provider_event_is_run_event (username password : string) (ev : event) :
  provider_event username password token_url delete_token_url ev ->
  run_event ev.
Proof.
  destruct ev as [| | |m target headers u p|]; simpl; try tauto.
  intros (Hh & _ & _ & [[_ ->]|[[_ ->]|[_ [suffix ->]]]]);
    (split; [exact Hh|reflexivity]).
Qed.

Lemma lambda_handler_emits {C : Type} (w : world) (event : json) (context : C) :
  emits run_event (lambda_handler w event context).
Proof.
  unfold lambda_handler.
  apply emits_bind; [now apply emits_emit|intros _].
  apply emits_try_except.
  - apply emits_bind; [apply get_edl_creds_emits|intros creds].
    apply emits_bind.
    { eapply emits_weaken; [apply provider_event_is_run_event|].
      apply generate_token_emits. }
    intros token.
    apply emits_bind; [apply emits_py_getitem|intros prefix].
    apply emits_bind; [apply store_token_emits|intros _].
    destruct (negb (py_truthy token)); [|apply emits_ret].
    apply emits_bind; [now apply emits_emit|intros _; apply emits_raise].
  - intros _.
    apply emits_bind; [now apply emits_emit|intros _; apply emits_raise].
Qed.

(** X16: whatever the event and the world, every event a run of
    [lambda_handler] adds is a log line, a read of [edl_username] or
    [edl_password] with decryption, a key resolution, a write named
    [bearer--edl--token] of type [SecureString], tier [Standard], with
    overwrite enabled, or an HTTP request with the [Accept] header to a URL
    under [https://urs.earthdata.nasa.gov/api/users/]. *)
Theorem run_sends_only_its_own_requests {C : Type} (w : world)
        (tr : list event) (payload : json) (context : C) :
  exists added : list event,
    snd (lambda_handler w payload context tr) = tr ++ added /\
    Forall run_event added.
Proof. apply lambda_handler_emits. Qed.

Lemma token_writes_keep_other_names (added : list event) :
  Forall run_event added ->
  forall (store : gmap string put_request) (name : string),
    name <> "bearer--edl--token" ->
    ssm_replay (put_requests added) store !! name = store !! name.
Proof.
  induction 1 as [|ev rest Hev _ IH]; intros store name Hname.
  - reflexivity.
  - destruct ev as [| |req| |]; simpl; try (now apply IH).
    destruct Hev as (Hn & _ & _ & Ho & _).
    unfold ssm_replay in *. simpl. rewrite IH by exact Hname.
    unfold ssm_write. rewrite Ho, Hn.
    apply lookup_insert_ne. congruence.
Qed.

(** X17: in the store as the spec describes it, the writes of a run, however
    it ends, leave every parameter other than [bearer--edl--token] as it
    was. *)
Theorem run_leaves_other_parameters_alone {C : Type} (w : world)
        (tr : list event) (event : json) (context : C)
        (store : gmap string put_request) (name : string) :
  name <> "bearer--edl--token" ->
  ssm_replay
    (put_requests (skipn (length tr) (snd (lambda_handler w event context tr))))
    store !! name = store !! name.
Proof.
  intros Hname.
  destruct (lambda_handler_emits w event context tr) as (added & Heq & Hadded).
  rewrite Heq, List.skipn_app, List.skipn_all, Nat.sub_diag. simpl.
  now apply token_writes_keep_other_names.
Qed.

Lemma run_leaves_other_parameters_alone_witness :
  ssm_replay
    (put_requests
       (snd (lambda_handler first_try_world (JObj [("prefix", JStr "uds")]) tt [])))
    {["edl_username" := token_parameter (JStr "user") "key-0"]}
    !! "edl_username" = Some (token_parameter (JStr "user") "key-0").
Proof.
  transitivity
    (({["edl_username" := token_parameter (JStr "user") "key-0"]}
      : gmap string put_request) !! "edl_username").
  - apply (run_leaves_other_parameters_alone
             first_try_world [] (JObj [("prefix", JStr "uds")]) tt).
    discriminate.
  - apply lookup_singleton_eq.
Defined.

(** ** How many requests a run sends *)

Lemma emits_adds_nothing {A} (P : event -> Prop) (p : event -> bool) (m : M A) :
  (forall ev, P ev -> p ev = false) -> emits P m -> adds_at_most p 0 m.
Proof.
  intros Hnone Hm tr. destruct (Hm tr) as (added & -> & Hadded).
  rewrite count_events_app.
  assert (Hzero : count_events p added = 0).
  { clear Hm. induction Hadded as [|ev rest Hev _ IH]; [reflexivity|].
    unfold count_events in *. simpl. now rewrite (Hnone ev Hev). }
  lia.
Qed.

Section RunCounts.

Variable w : world.
Variable p : event -> bool.
Hypothesis logs_not_counted : forall lvl msg, p (ELog lvl msg) = false.

Lemma adds_log (lvl : level) (msg : string) : adds_at_most p 0 (emit (ELog lvl msg)).
Proof. apply adds_emit, logs_not_counted. Qed.

Lemma get_edl_creds_adds (n : nat) :
  (forall name flag, (if p (EGetParameter name flag) then 1 else 0) <= n) ->
  adds_at_most p (n + n) (get_edl_creds w).
Proof.
  intros Hread. unfold get_edl_creds.
  apply (adds_weaken _ ((n + n) + 0)); [lia|].
  apply adds_try_except.
  - apply adds_bind.
    { eapply adds_weaken; [apply Hread|apply adds_aws_call]. }
    intros username.
    apply (adds_weaken _ (n + 0)); [lia|]. apply adds_bind.
    { eapply adds_weaken; [apply Hread|apply adds_aws_call]. }
    intros password.
    apply (adds_bind _ 0 0); [apply adds_log|intros _; apply adds_ret].
  - intros msg.
    apply (adds_bind _ 0 0); [apply adds_log|intros _].
    apply (adds_bind _ 0 0); [apply adds_log|intros _; apply adds_raise].
Qed.

Lemma store_token_adds (token prefix : json) (a b : nat) :
  (forall key_id, (if p (EDescribeKey key_id) then 1 else 0) <= a) ->
  (forall req, (if p (EPutParameter req) then 1 else 0) <= b) ->
  adds_at_most p (a + b) (store_token w token prefix).
Proof.
  intros Hkey Hput. unfold store_token.
  apply (adds_weaken _ ((a + b) + 0)); [lia|].
  apply adds_try_except.
  - apply adds_bind.
    { eapply adds_weaken; [apply Hkey|apply adds_aws_call]. }
    intros key.
    apply (adds_weaken _ (b + 0)); [lia|]. apply adds_bind.
    { eapply adds_weaken; [apply Hput|apply adds_aws_call]. }
    intros _. apply adds_log.
  - intros msg.
    apply (adds_bind _ 0 0); [apply adds_log|intros _].
    apply (adds_bind _ 0 0); [apply adds_log|intros _; apply adds_raise].
Qed.

Lemma lambda_handler_adds {C : Type} (payload : json) (context : C)
      (reads calls stores : nat) :
  adds_at_most p reads (get_edl_creds w) ->
  (forall username password,
     adds_at_most p calls
       (generate_token w username password token_url delete_token_url)) ->
  (forall token prefix, adds_at_most p stores (store_token w token prefix)) ->
  adds_at_most p (reads + calls + stores) (lambda_handler w payload context).
Proof.
  intros Hreads Hcalls Hstores. unfold lambda_handler.
  apply (adds_bind _ 0 (reads + calls + stores)); [apply adds_log|intros _].
  apply (adds_weaken _ ((reads + calls + stores) + 0)); [lia|].
  apply adds_try_except.
  - rewrite <- Nat.add_assoc. apply adds_bind; [exact Hreads|intros creds].
    apply adds_bind; [apply Hcalls|intros token].
    apply (adds_bind _ 0 stores); [apply adds_py_getitem|intros prefix].
    apply (adds_weaken _ (stores + 0)); [lia|].
    apply adds_bind; [apply Hstores|intros _].
    destruct (negb (py_truthy token)); [|apply adds_ret].
    apply (adds_bind _ 0 0); [apply adds_log|intros _; apply adds_raise].
  - intros _.
    apply (adds_bind _ 0 0); [apply adds_log|intros _; apply adds_raise].
Qed.

Lemma generate_token_adds_nothing (username password turl durl : string) :
  (forall m url headers u pw, p (EHttp m url headers u pw) = false) ->
  adds_at_most p 0 (generate_token w username password turl durl).
Proof.
  intros Hhttp.
  apply (emits_adds_nothing (provider_event username password turl durl));
    [|apply generate_token_emits].
  intros ev Hev. destruct ev; simpl in Hev; try contradiction.
  - apply Hhttp.
  - apply logs_not_counted.
Qed.

End RunCounts.

(** X18: whatever the event and the world, and however the run ends, one run
    of [lambda_handler] sends at most two parameter reads, two token-creation
    requests, one list request, one key resolution and one parameter write:
    nothing is retried apart from the single second creation request. *)
Theorem run_request_budget {C : Type} (w : world) (tr : list event)
        (payload : json) (context : C) :
  let tr' := snd (lambda_handler w payload context tr) in
  count_events is_credential_read tr' <= count_events is_credential_read tr + 2 /\
  count_events is_token_creation tr' <= count_events is_token_creation tr + 2 /\
  count_events is_list_request tr' <= count_events is_list_request tr + 1 /\
  count_events is_key_resolution tr' <= count_events is_key_resolution tr + 1 /\
  count_events is_parameter_write tr' <= count_events is_parameter_write tr + 1.
Proof.
  cbv zeta. repeat split.
  - apply (lambda_handler_adds w is_credential_read (fun _ _ => eq_refl)
             payload context 2 0 0).
    + apply (get_edl_creds_adds w _ (fun _ _ => eq_refl) 1). intros; simpl; lia.
    + intros u pw. now apply generate_token_adds_nothing.
    + intros token prefix.
      apply (store_token_adds w _ (fun _ _ => eq_refl) token prefix 0 0);
        intros; simpl; lia.
  - apply (lambda_handler_adds w is_token_creation (fun _ _ => eq_refl)
             payload context 0 2 0).
    + apply (get_edl_creds_adds w _ (fun _ _ => eq_refl) 0). intros; simpl; lia.
    + intros u pw. apply generate_token_creations.
    + intros token prefix.
      apply (store_token_adds w _ (fun _ _ => eq_refl) token prefix 0 0);
        intros; simpl; lia.
  - apply (lambda_handler_adds w is_list_request (fun _ _ => eq_refl)
             payload context 0 1 0).
    + apply (get_edl_creds_adds w _ (fun _ _ => eq_refl) 0). intros; simpl; lia.
    + intros u pw. apply generate_token_lists.
    + intros token prefix.
      apply (store_token_adds w _ (fun _ _ => eq_refl) token prefix 0 0);
        intros; simpl; lia.
  - apply (lambda_handler_adds w is_key_resolution (fun _ _ => eq_refl)
             payload context 0 0 1).
    + apply (get_edl_creds_adds w _ (fun _ _ => eq_refl) 0). intros; simpl; lia.
    + intros u pw. now apply generate_token_adds_nothing.
    + intros token prefix.
      apply (store_token_adds w _ (fun _ _ => eq_refl) token prefix 1 0);
        intros; simpl; lia.
  - apply (lambda_handler_adds w is_parameter_write (fun _ _ => eq_refl)
             payload context 0 0 1).
    + apply (get_edl_creds_adds w _ (fun _ _ => eq_refl) 0). intros; simpl; lia.
    + intros u pw. now apply generate_token_adds_nothing.
    + intros token prefix.
      apply (store_token_adds w _ (fun _ _ => eq_refl) token prefix 0 1);
        intros; simpl; lia.
Qed.

(** ** What a normal return guarantees *)

Lemma no_write_added {A} (m : M A) (tr : list event) :
  emits (fun ev => is_parameter_write ev = false) m ->
  exists added, snd (m tr) = tr ++ added /\ put_requests added = [].
Proof.
  intros Hm. destruct (Hm tr) as (added & Heq & Hadded).
  exists added. split; [exact Heq|]. clear Heq Hm.
  induction Hadded as [|ev rest Hev _ IH]; [reflexivity|].
  destruct ev; simpl in *; try exact IH. discriminate Hev.
Qed.

Lemma get_edl_creds_writes_nothing (w : world) :
  emits (fun ev => is_parameter_write ev = false) (get_edl_creds w).
Proof.
  unfold get_edl_creds.
  apply emits_try_except.
  - apply emits_bind; [now apply emits_aws_call|intros username].
    apply emits_bind; [now apply emits_aws_call|intros password].
    apply emits_bind; [now apply emits_emit|intros _; apply emits_ret].
  - intros msg.
    apply emits_bind; [now apply emits_emit|intros _].
    apply emits_bind; [now apply emits_emit|intros _; apply emits_raise].
Qed.

Lemma generate_token_writes_nothing (w : world)
      (username password turl durl : string) :
  emits (fun ev => is_parameter_write ev = false)
        (generate_token w username password turl durl).
Proof.
  eapply emits_weaken; [|apply generate_token_emits].
  intros ev Hev. destruct ev; simpl in *; try reflexivity. contradiction.
Qed.

(** X19: a run of [lambda_handler] that returns normally has sent exactly
    one write, which SSM accepted; its value is the value [generate_token]
    returned, it is truthy, its key id is the one KMS returned, and the last
    event of the run is the log line that the token has been stored. *)
Theorem normal_return_means_token_stored {C : Type} (w : world)
        (tr tr' : list event) (payload : json) (context : C) :
  lambda_handler w payload context tr = (Ok tt, tr') ->
  exists (token : json) (key : string) (before : list event),
    py_truthy token = true /\
    put_requests (skipn (length tr) tr') = [token_parameter token key] /\
    tr' = before ++ [EPutParameter (token_parameter token key); stored_log] /\
    ssm_put_parameter w before (token_parameter token key) = inr tt.
Proof.
  unfold lambda_handler, bind at 1, logger_info at 1, emit.
  unfold try_except_ClientError. unfold bind at 1.
  destruct (no_write_added (get_edl_creds w) (tr ++ [start_log])
              (get_edl_creds_writes_nothing w)) as (a1 & Heq1 & Hnone1).
  unfold start_log in *.
  destruct (get_edl_creds w (tr ++ [ELog INFO "Attempting to create token."]))
    as [[[username password]|e] tr1];
    [|destruct e; unfold bind, logger_info, emit, sys_exit, raise; discriminate].
  simpl in Heq1. subst tr1. simpl fst. simpl snd.
  unfold bind at 1.
  match goal with
  | |- context [generate_token w username password token_url delete_token_url ?t] =>
      destruct (no_write_added
                  (generate_token w username password token_url delete_token_url)
                  t (generate_token_writes_nothing w _ _ _ _))
        as (a2 & Heq2 & Hnone2);
      destruct (generate_token w username password token_url delete_token_url t)
        as [[token|e] tr2]
  end;
    [|destruct e; unfold bind, logger_info, emit, sys_exit, raise; discriminate].
  simpl in Heq2. subst tr2.
  unfold bind at 1.
  destruct payload as [| | | | |fields]; try discriminate.
  simpl py_getitem.
  destruct (dict_get "prefix" fields) as [prefix|]; [|discriminate].
  unfold ret at 1. unfold bind at 1.
  rewrite store_token_cases. cbv zeta.
  destruct (kms_describe_key w _ (key_alias w prefix)) as [e|key];
    [destruct e; discriminate|].
  destruct (ssm_put_parameter w _ (token_parameter token key)) as [e|[]] eqn:Hput;
    [destruct e; discriminate|].
  destruct (py_truthy token) eqn:Htruthy; [|discriminate].
  simpl. intros H. injection H as <-.
  exists token, key,
    ((((tr ++ [ELog INFO "Attempting to create token."]) ++ a1) ++ a2) ++
     [EDescribeKey (key_alias w prefix)]).
  split; [exact Htruthy|]. split; [|split].
  - rewrite <- !app_assoc, List.skipn_app, List.skipn_all, Nat.sub_diag.
    simpl skipn. simpl app.
    change (ELog INFO "Attempting to create token." :: a1 ++ a2 ++ ?l)
      with ([ELog INFO "Attempting to create token."] ++ a1 ++ a2 ++ l).
    rewrite !put_requests_app, Hnone1, Hnone2. reflexivity.
  - now rewrite <- !app_assoc.
  - exact Hput.
Qed.

Lemma normal_return_means_token_stored_witness :
  exists (token : json) (key : string),
    py_truthy token = true /\
    put_requests
      (snd (lambda_handler first_try_world (JObj [("prefix", JStr "uds")]) tt []))
    = [token_parameter token key].
Proof.
  destruct (normal_return_means_token_stored
              first_try_world []
              (snd (lambda_handler first_try_world
                      (JObj [("prefix", JStr "uds")]) tt []))
              (JObj [("prefix", JStr "uds")]) tt eq_refl)
    as (token & key & before & Htruthy & Hwrites & _).
  exists token, key. split; [exact Htruthy|exact Hwrites].
Defined.

(** ** [get_logger] *)

Lemma removeHandler_present (h : nat) (handlers : list nat) (index : nat) :
  nth_error handlers index = Some h ->
  S (length (removeHandler h handlers)) = length handlers.
Proof.
  intros Hnth. unfold removeHandler.
  assert (Hin : In h handlers) by (eapply nth_error_In; exact Hnth).
  assert (Hex : existsb (Nat.eqb h) handlers = true).
  { apply existsb_exists. exists h. split; [exact Hin|apply Nat.eqb_refl]. }
  rewrite Hex. clear Hnth Hex index.
  induction handlers as [|x rest IH]; [destruct Hin|].
  simpl. destruct (Nat.eqb x h) eqn:Hx; [reflexivity|].
  simpl. f_equal. apply IH.
  destruct Hin as [->|Hin]; [|exact Hin].
  now rewrite Nat.eqb_refl in Hx.
Qed.

Lemma remove_loop_length (fuel : nat) :
  forall index handlers,
    length handlers - index <= fuel ->
    length (snd (remove_while_iterating fuel index handlers)) =
    length handlers - (length handlers - index + 1) / 2 /\
    length (snd (remove_while_iterating fuel index handlers)) <=
    fst (remove_while_iterating fuel index handlers).
Proof.
  induction fuel as [|fuel IH]; intros index handlers Hfuel;
    cbn [remove_while_iterating];
    pose proof (Nat.div_mod_eq (length handlers - index + 1) 2) as H1;
    pose proof (Nat.mod_upper_bound (length handlers - index + 1) 2) as H3.
  - cbn [fst snd]. lia.
  - destruct (nth_error handlers index) as [h|] eqn:Hnth.
    + pose proof (removeHandler_present _ _ _ Hnth) as Hlen.
      assert (Hlt : index < length handlers)
        by (apply nth_error_Some; congruence).
      destruct (IH (S index) (removeHandler h handlers)) as [Hres Hexit];
        [lia|].
      split; [|exact Hexit]. rewrite Hres.
      pose proof (Nat.div_mod_eq
                    (length (removeHandler h handlers) - S index + 1) 2) as H2.
      pose proof (Nat.mod_upper_bound
                    (length (removeHandler h handlers) - S index + 1) 2) as H4.
      lia.
    + apply nth_error_None in Hnth. cbn [fst snd]. lia.
Qed.

(** X20: the loop of [get_logger] over the handlers of the root logger ends
    by itself (its index is past the end of the list it stops with), and it
    removes only every other handler: of [n] handlers, [n / 2] are still
    attached when [get_logger] returns. *)
Theorem get_logger_keeps_half_of_the_root_handlers (st : logging_state) :
  length (root_handlers (snd (get_logger st))) = length (root_handlers st) / 2 /\
  length (snd (remove_while_iterating (length (root_handlers st)) 0
                                      (root_handlers st)))
  <= fst (remove_while_iterating (length (root_handlers st)) 0
                                 (root_handlers st)).
Proof.
  destruct (remove_loop_length (length (root_handlers st)) 0 (root_handlers st))
    as [Hlen Hexit]; [lia|].
  split; [|exact Hexit]. cbn [get_logger snd root_handlers].
  rewrite Hlen. rewrite Nat.sub_0_r.
  pose proof (Nat.div_mod_eq (length (root_handlers st)) 2) as H1.
  pose proof (Nat.div_mod_eq (length (root_handlers st) + 1) 2) as H2.
  pose proof (Nat.mod_upper_bound (length (root_handlers st)) 2) as H3.
  pose proof (Nat.mod_upper_bound (length (root_handlers st) + 1) 2) as H4.
  lia.
Qed.

Lemma list_remove_first_app (h : nat) (kept rest : list nat) :
  ~ In h kept -> list_remove_first h (kept ++ h :: rest) = kept ++ rest.
Proof.
  induction kept as [|x kept IH]; intros Hnot; simpl.
  - now rewrite Nat.eqb_refl.
  - destruct (Nat.eqb x h) eqn:Hx.
    + apply Nat.eqb_eq in Hx. subst x. destruct Hnot. now left.
    + f_equal. apply IH. intros Hin. apply Hnot. now right.
Qed.

Lemma remove_loop_distinct (fuel : nat) :
  forall kept remaining : list nat,
    List.NoDup (kept ++ remaining) ->
    length remaining <= fuel ->
    snd (remove_while_iterating fuel (length kept) (kept ++ remaining)) =
    kept ++ odd_positions remaining.
Proof.
  induction fuel as [|fuel IH]; intros kept remaining Hdistinct Hfuel.
  - destruct remaining; [reflexivity|simpl in Hfuel; lia].
  - cbn [remove_while_iterating].
    destruct remaining as [|a rest].
    + rewrite app_nil_r.
      assert (Hnone : nth_error kept (length kept) = None)
        by (apply nth_error_None; lia).
      rewrite Hnone. simpl. now rewrite app_nil_r.
    + rewrite nth_error_app2, Nat.sub_diag by lia. simpl nth_error.
      destruct (List.NoDup_remove _ _ _ Hdistinct) as [Hrest Hnot].
      assert (Hremoved : removeHandler a (kept ++ a :: rest) = kept ++ rest).
      { unfold removeHandler.
        assert (Hex : existsb (Nat.eqb a) (kept ++ a :: rest) = true).
        { apply existsb_exists. exists a. split; [|apply Nat.eqb_refl].
          apply in_or_app. right. now left. }
        rewrite Hex. apply list_remove_first_app.
        intros Hin. apply Hnot. apply in_or_app. now left. }
      rewrite Hremoved.
      destruct rest as [|b rest'].
      * rewrite app_nil_r. simpl odd_positions. rewrite app_nil_r.
        destruct fuel; [reflexivity|]. cbn [remove_while_iterating].
        assert (Hnone : nth_error kept (S (length kept)) = None)
          by (apply nth_error_None; lia).
        now rewrite Hnone.
      * replace (kept ++ b :: rest') with ((kept ++ [b]) ++ rest')
          in Hrest |- * by now rewrite <- app_assoc.
        replace (S (length kept)) with (length (kept ++ [b]))
          by (rewrite List.length_app; simpl; lia).
        rewrite IH; [|exact Hrest|simpl in Hfuel; lia].
        simpl odd_positions. now rewrite <- app_assoc.
Qed.

(** X21: when the handlers of the root logger are distinct objects, the
    ones still attached after [get_logger] are exactly those at positions
    1, 3, 5, ... of the list: the first, third, fifth, ... handler is
    removed and each removal makes the loop step over the next one. *)
Theorem get_logger_skips_every_other_root_handler (st : logging_state) :
  List.NoDup (root_handlers st) ->
  root_handlers (snd (get_logger st)) = odd_positions (root_handlers st).
Proof.
  intros Hdistinct. cbn [get_logger snd root_handlers].
  exact (remove_loop_distinct (length (root_handlers st)) []
           (root_handlers st) Hdistinct (le_n _)).
Qed.

Lemma get_logger_skips_every_other_root_handler_witness :
  root_handlers (snd (get_logger three_root_handlers)) = [1].
Proof.
  apply (get_logger_skips_every_other_root_handler three_root_handlers).
  repeat constructor; simpl; lia.
Defined.

Lemma removeHandler_Forall (P : nat -> Prop) (h : nat) (handlers : list nat) :
  Forall P handlers -> Forall P (removeHandler h handlers).
Proof.
  intros Hall. unfold removeHandler.
  destruct (existsb (Nat.eqb h) handlers); [|exact Hall].
  induction Hall as [|x rest Hx Hrest IH]; simpl; [constructor|].
  destruct (Nat.eqb x h); [exact Hrest|now constructor].
Qed.

Lemma remove_loop_Forall (P : nat -> Prop) (fuel : nat) :
  forall index handlers,
    Forall P handlers ->
    Forall P (snd (remove_while_iterating fuel index handlers)).
Proof.
  induction fuel as [|fuel IH]; intros index handlers Hall;
    cbn [remove_while_iterating]; [exact Hall|].
  destruct (nth_error handlers index); [|exact Hall].
  apply IH. now apply removeHandler_Forall.
Qed.

Lemma get_logger_adds_one_handler (st : logging_state) :
  handlers_exist st ->
  module_handlers (snd (get_logger st)) =
  module_handlers st ++ [next_handler st] /\
  next_handler (snd (get_logger st)) = S (next_handler st) /\
  handlers_exist (snd (get_logger st)).
Proof.
  unfold handlers_exist. intros Hexist.
  apply Forall_app in Hexist. destruct Hexist as [Hroot Hmodule].
  assert (Hfresh : existsb (Nat.eqb (next_handler st)) (module_handlers st) = false).
  { destruct (existsb (Nat.eqb (next_handler st)) (module_handlers st)) eqn:Hex;
      [|reflexivity].
    apply existsb_exists in Hex. destruct Hex as (h & Hin & Heq).
    apply Nat.eqb_eq in Heq. subst h.
    rewrite List.Forall_forall in Hmodule. specialize (Hmodule _ Hin). lia. }
  cbn [get_logger snd module_handlers next_handler root_handlers].
  unfold addHandler. rewrite Hfresh.
  split; [reflexivity|]. split; [reflexivity|].
  apply Forall_app. split.
  - apply remove_loop_Forall.
    eapply List.Forall_impl; [|exact Hroot]. simpl. intros; lia.
  - apply Forall_app. split.
    + eapply List.Forall_impl; [|exact Hmodule]. simpl. intros; lia.
    + repeat constructor.
Qed.

(** X22: [get_logger] never removes a handler from the module's own logger
    and attaches a new one at every call: after [n] calls in one process the
    logger holds the ones it had and [n] new handlers, in the order of the
    calls. *)
Theorem module_handlers_accumulate (n : nat) (st : logging_state) :
  handlers_exist st ->
  module_handlers (get_logger_times n st) =
  module_handlers st ++ seq (next_handler st) n.
Proof.
  intros Hexist.
  assert (Hinv : module_handlers (get_logger_times n st) =
                 module_handlers st ++ seq (next_handler st) n /\
                 next_handler (get_logger_times n st) = next_handler st + n /\
                 handlers_exist (get_logger_times n st)).
  { induction n as [|n IH]; cbn [get_logger_times].
    - rewrite app_nil_r, Nat.add_0_r. now repeat split.
    - destruct IH as (Hmod & Hnext & Hex).
      destruct (get_logger_adds_one_handler _ Hex) as (Hmod' & Hnext' & Hex').
      rewrite Hmod', Hnext', Hmod, Hnext.
      split; [|split; [lia|exact Hex']].
      rewrite List.seq_S, app_assoc. reflexivity. }
  exact (proj1 Hinv).
Qed.

Lemma module_handlers_accumulate_witness :
  module_handlers (get_logger_times 3 three_root_handlers) = [3; 4; 5].
Proof.
  apply (module_handlers_accumulate 3 three_root_handlers).
  repeat constructor; simpl; lia.
Defined.
